(** * Connection manager of the Signal K JavaScript client

    A shallow embedding of [src/lib/connection.js] (class [Connection]) and
    the properties of its lifecycle, codec and request enrichment.

    Modelling conventions.
    - JavaScript values are the tree-shaped data the class handles: undefined,
      null, booleans, integral numbers, strings, arrays and plain objects.
      Functions, symbols, cyclic objects and non-integral numbers are outside
      the value type; a number stands for itself up to magnitude 2^53.
      Strings are sequences of code units below 256.
    - The class is event driven.  Every method and every transport handler is a
      function from the object's fields to the new fields together with the
      list of effects it performed, in program order: signals passed to
      [emit], sockets opened and closed, frames handed to the socket, requests
      handed to the HTTP client.
    - Code run by the listeners of a signal is consumer code; it is taken not
      to call back into the object while a handler is running.
    - [debug] and [console.log] write to a log only and are left out. *)

From Stdlib Require Import String Ascii ZArith List Bool Lia DecimalString.
Import ListNotations.

Local Open Scope string_scope.
Local Open Scope Z_scope.

(** ** JavaScript values *)

Set Warnings "-register-all".

Inductive jsval : Type :=
| JUndefined
| JNull
| JBool (b : bool)
| JNum (n : Z)
| JStr (s : string)
| JArr (elems : list jsval) (extra : list (string * jsval))
| JObj (props : list (string * jsval)).

(** Property tables are association lists in insertion order.  Keys are
    distinct, and the names the class uses are never array indices. *)
Definition props := list (string * jsval).

Fixpoint assoc_get (k : string) (ps : props) : option jsval :=
  match ps with
  | [] => None
  | (k', v) :: rest => if String.eqb k k' then Some v else assoc_get k rest
  end.

Fixpoint assoc_set (k : string) (v : jsval) (ps : props) : props :=
  match ps with
  | [] => [(k, v)]
  | (k', v') :: rest =>
      if String.eqb k k' then (k', v) :: rest else (k', v') :: assoc_set k v rest
  end.

Definition has_key (k : string) (ps : props) : bool :=
  match assoc_get k ps with Some _ => true | None => false end.

Definition dec (n : Z) : string := NilZero.string_of_int (Z.to_int n).

Definition index_key (i : nat) : string := dec (Z.of_nat i).

(** The index entries ["0"], ["1"], ... of an array. *)
Fixpoint index_props (i : nat) (es : list jsval) : props :=
  match es with
  | [] => []
  | e :: rest => (index_key i, e) :: index_props (S i) rest
  end.

(** [x] in a boolean position. *)
Definition truthy (v : jsval) : bool :=
  match v with
  | JUndefined | JNull => false
  | JBool b => b
  | JNum n => negb (n =? 0)
  | JStr s => negb (String.eqb s "")
  | JArr _ _ | JObj _ => true
  end.

(** [typeof x === 'object'] (true of null as well). *)
Definition typeof_object (v : jsval) : bool :=
  match v with
  | JNull | JArr _ _ | JObj _ => true
  | _ => false
  end.

(** [a || b] *)
Definition js_or (a b : jsval) : jsval := if truthy a then a else b.

(** [x === true], [x === false], [x === n] for a number [n]. *)
Definition is_true (v : jsval) : bool :=
  match v with JBool true => true | _ => false end.

Definition is_false (v : jsval) : bool :=
  match v with JBool false => true | _ => false end.

Definition is_num (n : Z) (v : jsval) : bool :=
  match v with JNum m => m =? n | _ => false end.

Definition is_null (v : jsval) : bool :=
  match v with JNull => true | _ => false end.

(** [Object.prototype.hasOwnProperty] applied to an object or array [x]
    and the name [k]: whether [k] is an own entry of [x]. *)
Definition hasOwnProperty (v : jsval) (k : string) : bool :=
  match v with
  | JObj ps => has_key k ps
  | JArr es ex =>
      String.eqb k "length" || has_key k (index_props 0 es) || has_key k ex
  | _ => false
  end.

(** [x.hasOwnProperty(k)] as the class writes it, for an object or array
    [x].  The method is looked up on [x] itself before its prototype: an own
    entry named [hasOwnProperty], which in this value type is never a
    function, makes the call throw a [TypeError]; that is [None]. *)
Definition method_hasOwnProperty (v : jsval) (k : string) : option bool :=
  if hasOwnProperty v "hasOwnProperty" then None
  else Some (hasOwnProperty v k).

(** [x.k] for an object or array [x]; the names read by the class are not
    defined on [Object.prototype] or [Array.prototype]. *)
Definition get_prop (v : jsval) (k : string) : jsval :=
  match v with
  | JObj ps => match assoc_get k ps with Some x => x | None => JUndefined end
  | JArr es ex =>
      if String.eqb k "length" then JNum (Z.of_nat (length es))
      else match assoc_get k (index_props 0 es) with
           | Some x => x
           | None => match assoc_get k ex with Some x => x | None => JUndefined end
           end
  | _ => JUndefined
  end.

(** [x.k = v] for an object or array [x] and a name [k] that is not an index. *)
Definition set_prop (v : jsval) (k : string) (x : jsval) : jsval :=
  match v with
  | JObj ps => JObj (assoc_set k x ps)
  | JArr es ex => JArr es (assoc_set k x ex)
  | _ => v
  end.

(** The own enumerable properties copied by [{...x}]. *)
Definition spread (v : jsval) : props :=
  match v with
  | JObj ps => ps
  | JArr es ex => (index_props 0 es ++ ex)%list
  | _ => []
  end.

(** The text of [String(x)], [`${x}`] and [s + x] where that conversion
    succeeds and [x] holds numbers of magnitude at most 2^53 only; the
    conversion with its failures is [ToString] below, and the two agree
    wherever [ToString] gives a text. *)
Fixpoint to_string (v : jsval) : string :=
  match v with
  | JUndefined => "undefined"
  | JNull => "null"
  | JBool true => "true"
  | JBool false => "false"
  | JNum n => dec n
  | JStr s => s
  | JArr es ex =>
      if has_key "join" ex then "[object Array]"
      else
        (fix join (l : list jsval) : string :=
           match l with
           | [] => ""
           | x :: rest =>
               (match x with
                | JUndefined | JNull => ""
                | _ => to_string x
                end)
               ++ match rest with [] => "" | _ :: _ => "," ++ join rest end
           end) es
  | JObj _ => "[object Object]"
  end.

(** The outcome of converting a value to a string: a text, a [TypeError]
    thrown, or [OutOfRange]: a text whose spelling is not modelled. *)
Inductive conversion : Type :=
| Converted (s : string)
| Throws
| OutOfRange.

(** [a + b] for two conversions made in this order: the first to throw
    ends the evaluation; an unmodelled text leaves the sum unmodelled. *)
Definition concatenate (a b : conversion) : conversion :=
  match a with
  | Throws => Throws
  | Converted x =>
      match b with
      | Converted y => Converted (x ++ y)
      | failure => failure
      end
  | OutOfRange =>
      match b with
      | Throws => Throws
      | _ => OutOfRange
      end
  end.

(** The conversion of [String(x)], [`${x}`] and [s + x], as the runtime
    performs it.  An object or array is asked for its [toString]: an own
    entry of that name is no function, the inherited [valueOf] returns the
    object itself, and the conversion throws a [TypeError].  Otherwise an
    object gives [[object Object]]; an array gives [[object Array]] when an
    own entry [join] hides the inherited one, and else its elements
    converted in order and joined by commas, with nothing for [undefined]
    and [null].  A number of magnitude up to 2^53 is spelled in decimal;
    beyond that the runtime gives a text without throwing (rounded digits,
    exponents from 1e21) that is not modelled, which is [OutOfRange]. *)
Fixpoint ToString (v : jsval) : conversion :=
  match v with
  | JUndefined => Converted "undefined"
  | JNull => Converted "null"
  | JBool true => Converted "true"
  | JBool false => Converted "false"
  | JNum n => if Z.abs n <=? 2 ^ 53 then Converted (dec n) else OutOfRange
  | JStr s => Converted s
  | JArr es ex =>
      if has_key "toString" ex then Throws
      else if has_key "join" ex then Converted "[object Array]"
      else
        (fix join (l : list jsval) : conversion :=
           match l with
           | [] => Converted ""
           | x :: rest =>
               concatenate
                 (match x with
                  | JUndefined | JNull => Converted ""
                  | _ => ToString x
                  end)
                 (match rest with
                  | [] => Converted ""
                  | _ :: _ => concatenate (Converted ",") (join rest)
                  end)
           end) es
  | JObj ps =>
      if has_key "toString" ps then Throws else Converted "[object Object]"
  end.

(** ** Strings *)

Definition dquote : string := String (ascii_of_nat 34) EmptyString.
Definition backslash : string := String (ascii_of_nat 92) EmptyString.

Definition hex_digit (n : nat) : string :=
  String (ascii_of_nat (if Nat.ltb n 10 then 48 + n else 87 + n)) EmptyString.

Definition escape_char (c : ascii) : string :=
  let n := nat_of_ascii c in
  if Nat.eqb n 34 then backslash ++ dquote
  else if Nat.eqb n 92 then backslash ++ backslash
  else if Nat.eqb n 8 then backslash ++ "b"
  else if Nat.eqb n 9 then backslash ++ "t"
  else if Nat.eqb n 10 then backslash ++ "n"
  else if Nat.eqb n 12 then backslash ++ "f"
  else if Nat.eqb n 13 then backslash ++ "r"
  else if Nat.ltb n 32 then
    backslash ++ "u00" ++ hex_digit (Nat.div n 16) ++ hex_digit (Nat.modulo n 16)
  else String c EmptyString.

Fixpoint escape (s : string) : string :=
  match s with
  | EmptyString => ""
  | String c rest => escape_char c ++ escape rest
  end.

Definition quote (s : string) : string := dquote ++ escape s ++ dquote.

(** [JSON.stringify(x)]; [None] is the result [undefined]. *)
Fixpoint JSON_stringify (v : jsval) : option string :=
  match v with
  | JUndefined => None
  | JNull => Some "null"
  | JBool true => Some "true"
  | JBool false => Some "false"
  | JNum n => Some (dec n)
  | JStr s => Some (quote s)
  | JArr es _ =>
      Some ("[" ++ String.concat ","
              ((fix items (l : list jsval) : list string :=
                  match l with
                  | [] => []
                  | x :: rest =>
                      match JSON_stringify x with
                      | Some t => t
                      | None => "null"
                      end :: items rest
                  end) es) ++ "]")
  | JObj ps =>
      Some ("{" ++ String.concat ","
              ((fix members (l : props) : list string :=
                  match l with
                  | [] => []
                  | (k, x) :: rest =>
                      match JSON_stringify x with
                      | Some t => (quote k ++ ":" ++ t) :: members rest
                      | None => members rest
                      end
                  end) ps) ++ "}")
  end.

(** The text of a value that has one. *)
Definition text_of (v : jsval) : string :=
  match JSON_stringify v with Some t => t | None => "" end.

(** [s.includes(sub)] *)
Fixpoint includes (sub s : string) : bool :=
  String.prefix sub s
  || match s with
     | EmptyString => false
     | String _ rest => includes sub rest
     end.

Fixpoint drop (n : nat) (s : string) : string :=
  match n, s with
  | O, _ => s
  | S n', String _ rest => drop n' rest
  | S _, EmptyString => EmptyString
  end.

(** [s.replace(pat, rep)] for a string pattern: the first occurrence only.
    The replacement texts of the class hold no [$]. *)
Fixpoint replace (pat rep s : string) : string :=
  if String.prefix pat s then rep ++ drop (String.length pat) s
  else match s with
       | EmptyString => EmptyString
       | String c rest => String c (replace pat rep rest)
       end.

(** [s.charAt(0) !== '/'] *)
Definition no_leading_slash (s : string) : bool :=
  match s with
  | String c _ => negb (Ascii.eqb c "/"%char)
  | EmptyString => true
  end.

Definition is_space (c : ascii) : bool :=
  let n := nat_of_ascii c in
  (Nat.leb 9 n && Nat.leb n 13) || Nat.eqb n 32 || Nat.eqb n 160.

Fixpoint trimStart (s : string) : string :=
  match s with
  | String c rest => if is_space c then trimStart rest else s
  | EmptyString => EmptyString
  end.

Fixpoint trimEnd (s : string) : string :=
  match s with
  | EmptyString => EmptyString
  | String c rest =>
      match trimEnd rest with
      | EmptyString => if is_space c then EmptyString else String c EmptyString
      | t => String c t
      end
  end.

(** [s.trim()] *)
Definition trim (s : string) : string := trimEnd (trimStart s).

(** ** Connection options *)

Module Options.
Record t : Type := mk {
  hostname : jsval;
  port : jsval;
  useTLS : jsval;
  version : jsval;
  useAuthentication : jsval;
  username : jsval;
  password : jsval;
  reconnect : jsval;
  maxRetries : jsval;
  bearerTokenPrefix : jsval
}.
End Options.

(** ** The object

    The fields assigned by the constructor.  [socket] is [None] for [null] and
    otherwise the address of the live [WebSocket], which then carries the four
    handlers of the object.  [_events] is the listener registry inherited from
    [EventEmitter]: one signal name per registered listener. *)

Record Token : Type := mkToken { kind : jsval; token : jsval }.

Record Connection : Type := mkConnection {
  options : Options.t;
  httpURI : string;
  wsURI : string;
  shouldDisconnect : bool;
  connected : bool;
  socket : option string;
  lastMessage : Z;
  isConnecting : bool;
  _fetchReady : bool;
  _bearerTokenPrefix : jsval;
  _authenticated : bool;
  _retries : Z;
  _connection : jsval;
  _self : jsval;
  _token : Token;
  _events : list string
}.

(** Field assignment [this.f = x]. *)

Definition set_shouldDisconnect (x : bool) (this : Connection) : Connection :=
  {| options := options this; httpURI := httpURI this; wsURI := wsURI this;
     shouldDisconnect := x; connected := connected this;
     socket := socket this; lastMessage := lastMessage this;
     isConnecting := isConnecting this; _fetchReady := _fetchReady this;
     _bearerTokenPrefix := _bearerTokenPrefix this;
     _authenticated := _authenticated this; _retries := _retries this;
     _connection := _connection this; _self := _self this;
     _token := _token this; _events := _events this |}.

Definition set_connected (x : bool) (this : Connection) : Connection :=
  {| options := options this; httpURI := httpURI this; wsURI := wsURI this;
     shouldDisconnect := shouldDisconnect this; connected := x;
     socket := socket this; lastMessage := lastMessage this;
     isConnecting := isConnecting this; _fetchReady := _fetchReady this;
     _bearerTokenPrefix := _bearerTokenPrefix this;
     _authenticated := _authenticated this; _retries := _retries this;
     _connection := _connection this; _self := _self this;
     _token := _token this; _events := _events this |}.

Definition set_socket (x : option string) (this : Connection) : Connection :=
  {| options := options this; httpURI := httpURI this; wsURI := wsURI this;
     shouldDisconnect := shouldDisconnect this; connected := connected this;
     socket := x; lastMessage := lastMessage this;
     isConnecting := isConnecting this; _fetchReady := _fetchReady this;
     _bearerTokenPrefix := _bearerTokenPrefix this;
     _authenticated := _authenticated this; _retries := _retries this;
     _connection := _connection this; _self := _self this;
     _token := _token this; _events := _events this |}.

Definition set_lastMessage (x : Z) (this : Connection) : Connection :=
  {| options := options this; httpURI := httpURI this; wsURI := wsURI this;
     shouldDisconnect := shouldDisconnect this; connected := connected this;
     socket := socket this; lastMessage := x;
     isConnecting := isConnecting this; _fetchReady := _fetchReady this;
     _bearerTokenPrefix := _bearerTokenPrefix this;
     _authenticated := _authenticated this; _retries := _retries this;
     _connection := _connection this; _self := _self this;
     _token := _token this; _events := _events this |}.

Definition set_isConnecting (x : bool) (this : Connection) : Connection :=
  {| options := options this; httpURI := httpURI this; wsURI := wsURI this;
     shouldDisconnect := shouldDisconnect this; connected := connected this;
     socket := socket this; lastMessage := lastMessage this;
     isConnecting := x; _fetchReady := _fetchReady this;
     _bearerTokenPrefix := _bearerTokenPrefix this;
     _authenticated := _authenticated this; _retries := _retries this;
     _connection := _connection this; _self := _self this;
     _token := _token this; _events := _events this |}.

Definition set__fetchReady (x : bool) (this : Connection) : Connection :=
  {| options := options this; httpURI := httpURI this; wsURI := wsURI this;
     shouldDisconnect := shouldDisconnect this; connected := connected this;
     socket := socket this; lastMessage := lastMessage this;
     isConnecting := isConnecting this; _fetchReady := x;
     _bearerTokenPrefix := _bearerTokenPrefix this;
     _authenticated := _authenticated this; _retries := _retries this;
     _connection := _connection this; _self := _self this;
     _token := _token this; _events := _events this |}.

Definition set__authenticated (x : bool) (this : Connection) : Connection :=
  {| options := options this; httpURI := httpURI this; wsURI := wsURI this;
     shouldDisconnect := shouldDisconnect this; connected := connected this;
     socket := socket this; lastMessage := lastMessage this;
     isConnecting := isConnecting this; _fetchReady := _fetchReady this;
     _bearerTokenPrefix := _bearerTokenPrefix this; _authenticated := x;
     _retries := _retries this; _connection := _connection this;
     _self := _self this; _token := _token this; _events := _events this |}.

Definition set__retries (x : Z) (this : Connection) : Connection :=
  {| options := options this; httpURI := httpURI this; wsURI := wsURI this;
     shouldDisconnect := shouldDisconnect this; connected := connected this;
     socket := socket this; lastMessage := lastMessage this;
     isConnecting := isConnecting this; _fetchReady := _fetchReady this;
     _bearerTokenPrefix := _bearerTokenPrefix this;
     _authenticated := _authenticated this; _retries := x;
     _connection := _connection this; _self := _self this;
     _token := _token this; _events := _events this |}.

Definition set__connection (x : jsval) (this : Connection) : Connection :=
  {| options := options this; httpURI := httpURI this; wsURI := wsURI this;
     shouldDisconnect := shouldDisconnect this; connected := connected this;
     socket := socket this; lastMessage := lastMessage this;
     isConnecting := isConnecting this; _fetchReady := _fetchReady this;
     _bearerTokenPrefix := _bearerTokenPrefix this;
     _authenticated := _authenticated this; _retries := _retries this;
     _connection := x; _self := _self this; _token := _token this;
     _events := _events this |}.

Definition set__self (x : jsval) (this : Connection) : Connection :=
  {| options := options this; httpURI := httpURI this; wsURI := wsURI this;
     shouldDisconnect := shouldDisconnect this; connected := connected this;
     socket := socket this; lastMessage := lastMessage this;
     isConnecting := isConnecting this; _fetchReady := _fetchReady this;
     _bearerTokenPrefix := _bearerTokenPrefix this;
     _authenticated := _authenticated this; _retries := _retries this;
     _connection := _connection this; _self := x; _token := _token this;
     _events := _events this |}.

Definition set__token (x : Token) (this : Connection) : Connection :=
  {| options := options this; httpURI := httpURI this; wsURI := wsURI this;
     shouldDisconnect := shouldDisconnect this; connected := connected this;
     socket := socket this; lastMessage := lastMessage this;
     isConnecting := isConnecting this; _fetchReady := _fetchReady this;
     _bearerTokenPrefix := _bearerTokenPrefix this;
     _authenticated := _authenticated this; _retries := _retries this;
     _connection := _connection this; _self := _self this; _token := x;
     _events := _events this |}.

Definition set__events (x : list string) (this : Connection) : Connection :=
  {| options := options this; httpURI := httpURI this; wsURI := wsURI this;
     shouldDisconnect := shouldDisconnect this; connected := connected this;
     socket := socket this; lastMessage := lastMessage this;
     isConnecting := isConnecting this; _fetchReady := _fetchReady this;
     _bearerTokenPrefix := _bearerTokenPrefix this;
     _authenticated := _authenticated this; _retries := _retries this;
     _connection := _connection this; _self := _self this;
     _token := _token this; _events := x |}.

(** ** Effects and the handler monad *)

(** What a promise is rejected with or a handler throws. *)
Inductive reason : Type :=
| Error (message : string)
| TypeError
| SyntaxError
| Foreign (v : jsval).

(** The argument of a signal. *)
Inductive arg : Type :=
| NoArg
| Val (v : jsval)
| Err (e : reason).

Inductive effect : Type :=
| Emit (name : string) (a : arg)
| SocketOpen (uri : string)
| SocketClose
| SocketSend (frame : jsval)
| HttpRequest (uri : string) (opts : jsval)
| UnhandledRejection (e : reason)
| Uncaught (e : reason).

(** A handler reads and assigns the fields of [this] and performs effects. *)
Definition M (A : Type) : Type := Connection -> A * Connection * list effect.

Definition ret {A : Type} (a : A) : M A := fun this => (a, this, []).

Definition bind {A B : Type} (m : M A) (f : A -> M B) : M B :=
  fun this =>
    let '(a, this1, e1) := m this in
    let '(b, this2, e2) := f a this1 in
    (b, this2, (e1 ++ e2)%list).

Definition get : M Connection := fun this => (this, this, []).

Definition assign (f : Connection -> Connection) : M unit :=
  fun this => (tt, f this, []).

Definition perform (e : effect) : M unit := fun this => (tt, this, [e]).

Notation "x <- m ;; k" := (bind m (fun x => k))
  (at level 61, m at next level, right associativity).
Notation "m ;; k" := (bind m (fun _ => k))
  (at level 61, right associativity).

Definition after {A : Type} (m : M A) (this : Connection) : Connection :=
  snd (fst (m this)).

Definition effects {A : Type} (m : M A) (this : Connection) : list effect :=
  snd (m this).

Definition result {A : Type} (m : M A) (this : Connection) : A :=
  fst (fst (m this)).

(** The outcome of a promise. *)
Inductive settled : Type :=
| Resolved (v : jsval)
| Rejected (e : reason).

(** What the HTTP client hands to the [then] of [fetch]; [content_type] is
    [response.headers.get('content-type')], [None] for [null]. *)
Record response : Type := mkResponse {
  ok : bool;
  status : Z;
  statusText : string;
  content_type : option string;
  body : string
}.

(** ** The class *)

(** The address [buildURI(protocol)] returns, a function of
    [this.options].  The constructor stores two such addresses, and there is
    an object only when both were built: [buildURI_result] below is the call
    with its outcome, which on some options is a [TypeError]. *)
Definition buildURI (o : Options.t) (protocol : string) : string :=
  let uri :=
    if is_true (Options.useTLS o) then protocol ++ "s://" else protocol ++ "://" in
  let uri := uri ++ to_string (Options.hostname o) in
  let uri :=
    uri ++ (if is_num 80 (Options.port o) then ""
            else ":" ++ to_string (Options.port o)) in
  let uri := uri ++ "/signalk/" in
  let uri := uri ++ to_string (Options.version o) in
  let uri :=
    if String.eqb protocol "ws" then uri ++ "/stream?subscribe=none" else uri in
  let uri := if String.eqb protocol "http" then uri ++ "/api" else uri in
  uri.

(** [buildURI(protocol)] with the conversions of the host, the port and the
    version as the runtime performs them, statement by statement; where it
    gives a text, that text is [buildURI]. *)
Definition buildURI_result (o : Options.t) (protocol : string) : conversion :=
  let uri :=
    Converted
      (if is_true (Options.useTLS o)
       then protocol ++ "s://" else protocol ++ "://") in
  let uri := concatenate uri (ToString (Options.hostname o)) in
  let uri :=
    concatenate uri
      (if is_num 80 (Options.port o) then Converted ""
       else concatenate (Converted ":") (ToString (Options.port o))) in
  let uri := concatenate uri (Converted "/signalk/") in
  let uri := concatenate uri (ToString (Options.version o)) in
  let uri :=
    if String.eqb protocol "ws"
    then concatenate uri (Converted "/stream?subscribe=none") else uri in
  let uri :=
    if String.eqb protocol "http"
    then concatenate uri (Converted "/api") else uri in
  uri.

Definition options_object (o : Options.t) : jsval :=
  JObj [("hostname", Options.hostname o); ("port", Options.port o);
        ("useTLS", Options.useTLS o); ("version", Options.version o);
        ("useAuthentication", Options.useAuthentication o);
        ("username", Options.username o); ("password", Options.password o);
        ("reconnect", Options.reconnect o);
        ("maxRetries", Options.maxRetries o);
        ("bearerTokenPrefix", Options.bearerTokenPrefix o)].

(** The data properties of the object, as a property table.  The remaining
    names on the object are functions: the four bound handlers, the methods
    and the accessors [self] and [connectionInfo] of the prototype, and the
    methods of [EventEmitter]. *)
Definition data_properties (this : Connection) : props :=
  [("options", options_object (options this));
   ("httpURI", JStr (httpURI this));
   ("wsURI", JStr (wsURI this));
   ("shouldDisconnect", JBool (shouldDisconnect this));
   ("connected", JBool (connected this));
   ("socket", match socket this with
              | None => JNull
              | Some uri => JObj [("url", JStr uri)]
              end);
   ("lastMessage", JNum (lastMessage this));
   ("isConnecting", JBool (isConnecting this));
   ("_fetchReady", JBool (_fetchReady this));
   ("_bearerTokenPrefix", _bearerTokenPrefix this);
   ("_authenticated", JBool (_authenticated this));
   ("_retries", JNum (_retries this));
   ("_connection", _connection this);
   ("_self", _self this);
   ("_token", JObj [("kind", kind (_token this));
                    ("token", token (_token this))])].

(** [this.name] for a name that is not a function of the object. *)
Definition this_get (this : Connection) (name : string) : jsval :=
  get_prop (JObj (data_properties this)) name.

(** [this._retries += 1] on a number: exact below 2^53, where the sum rounds
    back to 2^53. *)
Definition incr (n : Z) : Z := if n <? 2 ^ 53 then n + 1 else n.

Definition emit (name : string) (a : arg) : M unit := perform (Emit name a).

(** [on(name, listener)], inherited from [EventEmitter]. *)
Definition on (name : string) : M unit :=
  assign (fun this => set__events (_events this ++ [name])%list this).

(** [removeAllListeners()], inherited from [EventEmitter]. *)
Definition removeAllListeners : M unit := assign (set__events []).

(** [set self (data)] *)
Definition set_self (data : jsval) : M unit :=
  (if negb (is_null data) then emit "self" (Val data) else ret tt) ;;
  assign (set__self data).

(** [set connectionInfo (data)], for an object [data]. *)
Definition set_connectionInfo (data : jsval) : M unit :=
  (if negb (is_null data) then emit "connectionInfo" (Val data) else ret tt) ;;
  assign (set__connection data) ;;
  set_self (get_prop data "self").

(** [get self ()] and [get connectionInfo ()] *)
Definition self (this : Connection) : jsval := _self this.

Definition connectionInfo (this : Connection) : jsval := _connection this.

(** [state()] *)
Definition state (this : Connection) : jsval :=
  JObj [("connecting", JBool (isConnecting this));
        ("connected", JBool (connected this));
        ("ready", this_get this "fetchReady")].

(** [initiateSocket()]: the socket is created and the four handlers attached. *)
Definition initiateSocket : M unit :=
  this <- get ;;
  perform (SocketOpen (wsURI this)) ;;
  assign (set_socket (Some (wsURI this))).

(** [cleanupListeners()] *)
Definition cleanupListeners : M unit :=
  assign (set__authenticated false) ;;
  assign (set__token (mkToken (JStr "") (JStr ""))) ;;
  removeAllListeners.

(** [fetch(path, opts)] up to the call of the HTTP client; the result is the
    address, which the [then] of the request closes over. *)
Definition fetch (path : string) (opts : jsval) : M string :=
  let path := if no_leading_slash path then "/" ++ path else path in
  let opts :=
    if negb (truthy opts) || negb (typeof_object opts)
    then JObj [("method", JStr "GET")]
    else opts in
  let opts :=
    if negb (truthy (get_prop opts "headers"))
       || negb (typeof_object (get_prop opts "headers"))
    then set_prop opts "headers"
           (JObj [("Accept", JStr "application/json");
                  ("Content-Type", JStr "application/json")])
    else opts in
  this <- get ;;
  let opts :=
    if _authenticated this && negb (includes "auth/login" path)
    then
      let opts :=
        set_prop opts "headers"
          (JObj (assoc_set "Authorization"
                   (JStr (to_string (kind (_token this)) ++ " "
                          ++ to_string (token (_token this))))
                   (spread (get_prop opts "headers")))) in
      let opts := set_prop opts "credentials" (JStr "same-origin") in
      set_prop opts "mode" (JStr "cors")
    else opts in
  let URI := httpURI this ++ path in
  let URI :=
    if includes "/api/auth/login" URI
    then replace "/api/auth/login" "/auth/login" URI else URI in
  let URI :=
    if includes "/api/access/requests" URI
    then replace "/api/access/requests" "/access/requests" URI else URI in
  let URI :=
    if includes "/signalk/v1/api/security" URI
    then replace "/signalk/v1/api/security" "/security" URI else URI in
  perform (HttpRequest URI opts) ;;
  ret URI.

(** [setAuthenticated(token, kind = 'JWT')] *)
Definition setAuthenticated (tok knd : jsval) : M unit :=
  let knd := match knd with JUndefined => JStr "JWT" | _ => knd end in
  emit "fetchReady" NoArg ;;
  assign (set__authenticated true) ;;
  assign (set__token (mkToken knd tok)).

(** [_onWSOpen()] *)
Definition _onWSOpen : M unit :=
  assign (set_connected true) ;;
  assign (set_isConnecting false) ;;
  emit "connect" NoArg.

(** The request body built by [reconnect]. *)
Definition authRequest (o : Options.t) : jsval :=
  JObj [("method", JStr "POST");
        ("mode", JStr "cors");
        ("credentials", JStr "same-origin");
        ("body",
         match JSON_stringify
                 (JObj [("username",
                         JStr (to_string (js_or (Options.username o) (JStr ""))));
                        ("password",
                         JStr (to_string (js_or (Options.password o) (JStr ""))))])
         with
         | Some t => JStr t
         | None => JUndefined
         end)].

(** [reconnect(initial = false)] up to the login request; the two callbacks
    of the request are [login_then] and [login_catch]. *)
Definition reconnect (initial : bool) : M unit :=
  this <- get ;;
  if isConnecting this then ret tt
  else
    match socket this with
    | Some _ => perform SocketClose
    | None =>
        if negb initial
           && is_num (_retries this) (Options.maxRetries (options this))
        then emit "hitMaxRetries" NoArg ;; cleanupListeners
        else if negb initial && is_false (Options.reconnect (options this))
        then cleanupListeners
        else if negb initial && shouldDisconnect this
        then cleanupListeners
        else
          assign (set__fetchReady false) ;;
          assign (set_shouldDisconnect false) ;;
          assign (set_isConnecting true) ;;
          if is_false (Options.useAuthentication (options this))
          then
            assign (set__fetchReady true) ;;
            emit "fetchReady" NoArg ;;
            initiateSocket
          else
            fetch "/auth/login" (authRequest (options this)) ;;
            ret tt
    end.

(** The [catch] of the login request: the error is signalled and thrown
    again, to a promise nobody holds. *)
Definition login_catch (err : reason) : M unit :=
  emit "error" (Err err) ;;
  perform (UnhandledRejection err).

(** The error the [then] of the login request throws at an answer that is
    no object with a [token]. *)
Definition unexpected_response (res : jsval) : reason :=
  Error ("Unexpected response from auth endpoint: "
         ++ match JSON_stringify res with
            | Some t => t
            | None => "undefined"
            end).

(** The [then] of the login request.  What it throws, the [TypeError] of
    [result.hasOwnProperty('token')] included, goes to the [catch]. *)
Definition login_then (res : jsval) : M unit :=
  this <- get ;;
  if negb (truthy res) || negb (typeof_object res)
  then login_catch (unexpected_response res)
  else
    match method_hasOwnProperty res "token" with
    | None => login_catch TypeError
    | Some false => login_catch (unexpected_response res)
    | Some true =>
        assign (set__authenticated true) ;;
        assign (set__token
                  (mkToken
                     (match get_prop res "type" with
                      | JStr t =>
                          if negb (String.eqb (trim t) "")
                          then JStr t
                          else _bearerTokenPrefix this
                      | _ => _bearerTokenPrefix this
                      end)
                     (get_prop res "token"))) ;;
        assign (set__fetchReady true) ;;
        emit "fetchReady" NoArg ;;
        initiateSocket
    end.

(** The login request settles. *)
Definition login_settled (o : settled) : M unit :=
  match o with
  | Resolved res => login_then res
  | Rejected err => login_catch err
  end.

(** [disconnect()] *)
Definition disconnect : M unit :=
  assign (set_shouldDisconnect true) ;;
  reconnect false.

(** [_onWSError(err)] *)
Definition _onWSError (err : jsval) : M unit :=
  this <- get ;;
  assign (set__retries (incr (_retries this))) ;;
  emit "error" (Val err) ;;
  reconnect false.

(** [_onWSClose(evt)]; the first statement dereferences [this.socket]. *)
Definition _onWSClose (evt : jsval) : M unit :=
  this <- get ;;
  match socket this with
  | None => perform (Uncaught TypeError)
  | Some _ =>
      assign (set_connected false) ;;
      assign (set_isConnecting false) ;;
      assign (set_socket None) ;;
      assign (set__retries (incr (_retries this))) ;;
      emit "disconnect" (Val evt) ;;
      reconnect false
  end.

(** The fields the constructor assigns before it calls [reconnect]. *)
Definition fresh (o : Options.t) : Connection :=
  {| options := o;
     httpURI := buildURI o "http";
     wsURI := buildURI o "ws";
     shouldDisconnect := false;
     connected := false;
     socket := None;
     lastMessage := -1;
     isConnecting := false;
     _fetchReady := false;
     _bearerTokenPrefix := js_or (Options.bearerTokenPrefix o) (JStr "Bearer");
     _authenticated := false;
     _retries := 0;
     _connection := JNull;
     _self := JStr "";
     _token := mkToken (JStr "") (JStr "");
     _events := [] |}.

(** The constructor, which ends in [this.reconnect(true)]. *)
Definition construct (o : Options.t) : Connection * list effect :=
  (after (reconnect true) (fresh o), effects (reconnect true) (fresh o)).

(** What [send] returns: a rejected promise or [undefined]. *)
Inductive send_result : Type :=
| SendRejected (e : reason)
| SendUndefined.

Section Codec.

(** [JSON.parse] of the runtime; [None] when it throws. *)
Variable JSON_parse : string -> option jsval.

(** [try { if (typeof data === 'string') data = JSON.parse(data) } catch] *)
Definition parse_if_string (data : jsval) : jsval :=
  match data with
  | JStr s => match JSON_parse s with Some v => v | None => data end
  | _ => data
  end.

(** [data && typeof data === 'object' && data.hasOwnProperty('name') &&
    data.hasOwnProperty('version') && data.hasOwnProperty('roles')], from
    left to right; [None] when a call of [hasOwnProperty] throws. *)
Definition is_handshake (data : jsval) : option bool :=
  if truthy data && typeof_object data
  then
    match method_hasOwnProperty data "name" with
    | Some true =>
        match method_hasOwnProperty data "version" with
        | Some true => method_hasOwnProperty data "roles"
        | other => other
        end
    | other => other
    end
  else Some false.

(** [_onWSMessage(evt)]; [now] is [Date.now()] and [evt_data] is
    [evt.data].  The test of the handshake is outside the [try]: when it
    throws, the handler ends there. *)
Definition _onWSMessage (now : Z) (evt_data : jsval) : M unit :=
  assign (set_lastMessage now) ;;
  let data := parse_if_string evt_data in
  match is_handshake data with
  | None => perform (Uncaught TypeError)
  | Some handshake =>
      (if handshake then set_connectionInfo data else ret tt) ;;
      emit "message" (Val data)
  end.

(** [send(data)].  Serialising a tree value never throws, so the [catch]
    around [JSON.stringify] has no case here. *)
Definition send (data : jsval) : M send_result :=
  this <- get ;;
  if negb (connected this)
     || match socket this with None => true | Some _ => false end
  then ret (SendRejected (Error "Not connected to WebSocket"))
  else
    let data := parse_if_string data in
    let isObj := truthy data && typeof_object data in
    let data :=
      if isObj && is_true (this_get this "useAuthentication")
         && _authenticated this
      then set_prop data "token" (JStr (to_string (token (_token this))))
      else data in
    let data :=
      if isObj
      then match JSON_stringify data with
           | Some t => JStr t
           | None => JUndefined
           end
      else data in
    perform (SocketSend data) ;;
    ret SendUndefined.

(** The [then] of the request in [fetch]. *)
Definition fetch_then (URI : string) (r : response) : settled :=
  if negb (ok r)
  then Rejected (Error ("Error fetching " ++ URI ++ ": " ++ dec (status r)
                        ++ " " ++ statusText r))
  else
    match content_type r with
    | None => Rejected TypeError
    | Some type =>
        if includes "application/json" type
        then match JSON_parse (body r) with
             | Some v => Resolved v
             | None => Rejected SyntaxError
             end
        else Resolved (JStr (body r))
    end.

(** ** Runs *)

(** What can happen to the object: the events of its socket, the outcome
    of its login request, and the calls of its consumer. *)
Inductive event : Type :=
| WSOpen
| WSMessage (now : Z) (data : jsval)
| WSError (err : jsval)
| WSClose (evt : jsval)
| LoginSettled (o : settled)
| CallDisconnect
| CallReconnect (initial : bool)
| CallSend (data : jsval)
| CallFetch (path : string) (opts : jsval)
| CallSetAuthenticated (tok knd : jsval)
| CallOn (name : string).

Definition step (ev : event) : M unit :=
  match ev with
  | WSOpen => _onWSOpen
  | WSMessage now data => _onWSMessage now data
  | WSError err => _onWSError err
  | WSClose evt => _onWSClose evt
  | LoginSettled o => login_settled o
  | CallDisconnect => disconnect
  | CallReconnect initial => reconnect initial
  | CallSend data => send data ;; ret tt
  | CallFetch path opts => fetch path opts ;; ret tt
  | CallSetAuthenticated tok knd => setAuthenticated tok knd
  | CallOn name => on name
  end.

Fixpoint run (evs : list event) : M unit :=
  match evs with
  | [] => ret tt
  | ev :: rest => step ev ;; run rest
  end.

End Codec.

(** ** Outcomes and observations *)

(** The object as the constructor leaves it. *)
Definition constructed (o : Options.t) : Connection := fst (construct o).

(** The fields after [cleanupListeners]. *)
Definition cleaned (this : Connection) : Connection :=
  set__events []
    (set__token (mkToken (JStr "") (JStr "")) (set__authenticated false this)).

(** The fields once [reconnect] has decided to connect. *)
Definition connecting (this : Connection) : Connection :=
  set_isConnecting true
    (set_shouldDisconnect false (set__fetchReady false this)).

(** The fields [_onWSClose] hands to [reconnect]. *)
Definition closed (this : Connection) : Connection :=
  set__retries (incr (_retries this))
    (set_socket None (set_isConnecting false (set_connected false this))).

(** The ways [reconnect] can go. *)
Inductive reconnect_outcome (initial : bool) (this : Connection)
  : unit * Connection * list effect -> Prop :=
| Reconnect_in_flight :
    isConnecting this = true ->
    reconnect_outcome initial this (tt, this, [])
| Reconnect_closes_socket (uri : string) :
    isConnecting this = false ->
    socket this = Some uri ->
    reconnect_outcome initial this (tt, this, [SocketClose])
| Reconnect_exhausted :
    isConnecting this = false ->
    socket this = None ->
    initial = false ->
    Options.maxRetries (options this) = JNum (_retries this) ->
    reconnect_outcome initial this
      (tt, cleaned this, [Emit "hitMaxRetries" NoArg])
| Reconnect_stops :
    isConnecting this = false ->
    socket this = None ->
    initial = false ->
    Options.maxRetries (options this) <> JNum (_retries this) ->
    Options.reconnect (options this) = JBool false
    \/ shouldDisconnect this = true ->
    reconnect_outcome initial this (tt, cleaned this, [])
| Reconnect_opens :
    isConnecting this = false ->
    socket this = None ->
    initial = true
    \/ (Options.maxRetries (options this) <> JNum (_retries this)
        /\ Options.reconnect (options this) <> JBool false
        /\ shouldDisconnect this = false) ->
    Options.useAuthentication (options this) = JBool false ->
    reconnect_outcome initial this
      (tt,
       set_socket (Some (wsURI this)) (set__fetchReady true (connecting this)),
       [Emit "fetchReady" NoArg; SocketOpen (wsURI this)])
| Reconnect_logs_in (uri : string) (opts : jsval) :
    isConnecting this = false ->
    socket this = None ->
    initial = true
    \/ (Options.maxRetries (options this) <> JNum (_retries this)
        /\ Options.reconnect (options this) <> JBool false
        /\ shouldDisconnect this = false) ->
    Options.useAuthentication (options this) <> JBool false ->
    reconnect_outcome initial this
      (tt, connecting this, [HttpRequest uri opts]).

(** The login request failed: it was rejected, or it resolved to a value
    without a [token] entry of its own. *)
Definition login_failed (o : settled) : Prop :=
  match o with
  | Rejected _ => True
  | Resolved res => hasOwnProperty res "token" = false
  end.

(** A connection attempt is under way and no socket exists. *)
Definition stuck (this : Connection) : Prop :=
  isConnecting this = true /\ socket this = None.

(** The retry limit has been reached and nothing is under way. *)
Definition exhausted (this : Connection) : Prop :=
  isConnecting this = false
  /\ socket this = None
  /\ Options.maxRetries (options this) = JNum (_retries this).

(** The calls of the consumer, as opposed to the events of the transports. *)
Definition is_call (ev : event) : bool :=
  match ev with
  | WSOpen | WSMessage _ _ | WSError _ | WSClose _ | LoginSettled _ => false
  | _ => true
  end.

(** [reconnect()] and [disconnect()]. *)
Definition is_lifecycle_call (ev : event) : bool :=
  match ev with
  | CallDisconnect | CallReconnect false => true
  | _ => false
  end.

Definition opens_socket (e : effect) : bool :=
  match e with SocketOpen _ => true | _ => false end.

(** A failure of the transport that reaches the retry counter: an error, or
    a close of the live socket. *)
Definition is_failure (ev : event) (this : Connection) : bool :=
  match ev with
  | WSError _ => true
  | WSClose _ => match socket this with Some _ => true | None => false end
  | _ => false
  end.

Section Counting.

Variable JSON_parse : string -> option jsval.

(** The number of transport failures in a run. *)
Fixpoint failures (evs : list event) (this : Connection) : Z :=
  match evs with
  | [] => 0
  | ev :: rest =>
      (if is_failure ev this then 1 else 0)
      + failures rest (after (step JSON_parse ev) this)
  end.

End Counting.

(** How often a signal occurs among effects. *)
Fixpoint count_emit (name : string) (es : list effect) : nat :=
  match es with
  | [] => O
  | Emit n _ :: rest =>
      ((if String.eqb n name then 1 else 0) + count_emit name rest)%nat
  | _ :: rest => count_emit name rest
  end.

(** Whether a connection attempt is among effects: a socket opened or a
    login request issued. *)
Definition is_attempt (e : effect) : bool :=
  match e with
  | SocketOpen _ | HttpRequest _ _ => true
  | _ => false
  end.

Definition no_attempt (es : list effect) : bool :=
  forallb (fun e => negb (is_attempt e)) es.


(** How often a socket is opened among effects. *)
Fixpoint count_open (es : list effect) : nat :=
  match es with
  | [] => O
  | SocketOpen _ :: rest => S (count_open rest)
  | _ :: rest => count_open rest
  end.

(** What the transports can deliver.  The four handlers are attached to the
    socket the object holds and detached when it closes, so a socket event
    needs a socket; the login request is outstanding only while the object is
    connecting and has no socket. *)
Definition enabled (ev : event) (this : Connection) : bool :=
  match ev with
  | WSOpen | WSMessage _ _ | WSError _ | WSClose _ =>
      match socket this with Some _ => true | None => false end
  | LoginSettled _ =>
      isConnecting this
      && match socket this with None => true | Some _ => false end
  | _ => true
  end.

Section Delivery.

Variable JSON_parse : string -> option jsval.

(** A run in which every event of a transport is one it can deliver. *)
Fixpoint deliverable (evs : list event) (this : Connection) : bool :=
  match evs with
  | [] => true
  | ev :: rest =>
      enabled ev this && deliverable rest (after (step JSON_parse ev) this)
  end.

End Delivery.

(** The flags agree with the socket: the counter is not negative, an object
    that has seen no failure is connecting or holds a socket, and a connected
    object holds a socket and is not connecting. *)
Definition consistent (this : Connection) : Prop :=
  0 <= _retries this
  /\ (_retries this = 0 -> isConnecting this = true \/ socket this <> None)
  /\ (connected this = true ->
      socket this <> None /\ isConnecting this = false).

(** The request options [fetch] supplies when the caller gives none. *)
Definition default_headers : jsval :=
  JObj [("Accept", JStr "application/json");
        ("Content-Type", JStr "application/json")].

(** The three rewrites [fetch] applies to the address it has composed. *)
Definition auxiliary_address (URI : string) : string :=
  let URI :=
    if includes "/api/auth/login" URI
    then replace "/api/auth/login" "/auth/login" URI else URI in
  let URI :=
    if includes "/api/access/requests" URI
    then replace "/api/access/requests" "/access/requests" URI else URI in
  if includes "/signalk/v1/api/security" URI
  then replace "/signalk/v1/api/security" "/security" URI else URI.

(** The options of the login request as [fetch] hands them on. *)
Definition login_options (o : Options.t) : jsval :=
  JObj [("method", JStr "POST");
        ("mode", JStr "cors");
        ("credentials", JStr "same-origin");
        ("body",
         JStr (text_of
                 (JObj [("username",
                         JStr (to_string (js_or (Options.username o) (JStr ""))));
                        ("password",
                         JStr (to_string
                                 (js_or (Options.password o) (JStr ""))))])));
        ("headers", default_headers)].

(** Every socket opened among effects is opened at the given address. *)
Definition opens_at (address : string) (es : list effect) : bool :=
  forallb
    (fun e =>
       match e with
       | SocketOpen uri => String.eqb uri address
       | _ => true
       end) es.

(** ** Sample data *)

(** A parser standing for [JSON.parse] on the texts of the examples: it
    knows the given texts and throws on every other. *)
Definition parse_table (table : list (string * jsval)) (s : string)
  : option jsval :=
  assoc_get s table.

Definition sample_options (auth : bool) (maxRetries : Z) : Options.t :=
  {| Options.hostname := JStr "localhost";
     Options.port := JNum 3000;
     Options.useTLS := JBool false;
     Options.version := JStr "v1";
     Options.useAuthentication := JBool auth;
     Options.username := JStr "admin";
     Options.password := JStr "secret";
     Options.reconnect := JBool true;
     Options.maxRetries := JNum maxRetries;
     Options.bearerTokenPrefix := JUndefined |}.

(** The same options with a host that is an object whose [toString] entry
    is no function: [{hostname: {toString: null}, ...}]. *)
Definition unconvertible_host_options : Options.t :=
  {| Options.hostname := JObj [("toString", JNull)];
     Options.port := JNum 3000;
     Options.useTLS := JBool false;
     Options.version := JStr "v1";
     Options.useAuthentication := JBool false;
     Options.username := JStr "admin";
     Options.password := JStr "secret";
     Options.reconnect := JBool true;
     Options.maxRetries := JNum 3;
     Options.bearerTokenPrefix := JUndefined |}.

(** The handshake frame of a server, with the given [self] entry. *)
Definition handshake_frame (self_value : jsval) : jsval :=
  JObj [("name", JStr "signalk"); ("version", JStr "1.0");
        ("roles", JArr [JStr "master"] []); ("self", self_value)].

Definition vessel : jsval := JStr "vessels.urn:mrn:imo:mmsi:1234".

Definition sample_parse : string -> option jsval :=
  parse_table
    [(text_of (handshake_frame vessel), handshake_frame vessel);
     (text_of (handshake_frame JNull), handshake_frame JNull)].

(** The object after a login answered with [{token: 'abc'}] and the opening
    of the socket. *)
Definition logged_in : Connection :=
  after
    (run sample_parse
       [LoginSettled (Resolved (JObj [("token", JStr "abc")])); WSOpen])
    (constructed (sample_options true 3)).

(** An object without authentication whose socket has opened. *)
Definition open_sample : Connection :=
  after _onWSOpen (constructed (sample_options false 3)).

(** A parser for the texts [42] and that of [{a: 1}]. *)
Definition number_parse : string -> option jsval :=
  parse_table
    [("42", JNum 42);
     (text_of (JObj [("a", JNum 1)]), JObj [("a", JNum 1)])].

(** A frame whose object has an entry [hasOwnProperty] of its own, and a
    parser for its text. *)
Definition shadowing_frame : jsval :=
  JObj [("hasOwnProperty", JBool true); ("name", JStr "signalk")].

Definition shadowing_parse : string -> option jsval :=
  parse_table [(text_of shadowing_frame, shadowing_frame)].

(** A connection that is refused twice and then established. *)
Definition refused_twice : list event :=
  [WSError (JStr "refused"); WSClose (JObj [("code", JNum 1006)]);
   WSError (JStr "refused"); WSClose (JObj [("code", JNum 1006)]);
   WSOpen; WSMessage 1700000000000 (JStr "hello")].

(** ** Properties *)

Lemma append_assoc (a b c : string) : (a ++ b) ++ c = a ++ (b ++ c).
Proof. induction a as [|ch a IH]; simpl; [reflexivity | now rewrite IH]. Qed.

Lemma append_nil_r (a : string) : a ++ "" = a.
Proof. induction a as [|ch a IH]; simpl; [reflexivity | now rewrite IH]. Qed.

Lemma is_true_spec (v : jsval) : is_true v = true <-> v = JBool true.
Proof.
  split.
  - destruct v as [| |[|]| | | |]; simpl; intro H; try discriminate; reflexivity.
  - intros ->; reflexivity.
Qed.

Lemma is_false_spec (v : jsval) : is_false v = true <-> v = JBool false.
Proof.
  split.
  - destruct v as [| |[|]| | | |]; simpl; intro H; try discriminate; reflexivity.
  - intros ->; reflexivity.
Qed.

Lemma object_cases (v : jsval) :
  truthy v && typeof_object v = true ->
  (exists es ex, v = JArr es ex) \/ (exists ps, v = JObj ps).
Proof.
  destruct v; simpl; rewrite ?andb_false_r; intro H; try discriminate H.
  - left. eauto.
  - right. eauto.
Qed.

Lemma is_num_spec (n : Z) (v : jsval) : is_num n v = true <-> v = JNum n.
Proof.
  split.
  - destruct v; simpl; intro H; try discriminate.
    apply Z.eqb_eq in H; now subst.
  - intros ->; simpl; apply Z.eqb_refl.
Qed.








(** *** The handler monad *)

Lemma after_bind {A B : Type} (m : M A) (f : A -> M B) (this : Connection) :
  after (bind m f) this = after (f (result m this)) (after m this).
Proof.
  unfold after, result, bind. destruct (m this) as [[a t] e]. simpl.
  destruct (f a t) as [[b t'] e']. reflexivity.
Qed.

Lemma effects_bind {A B : Type} (m : M A) (f : A -> M B) (this : Connection) :
  effects (bind m f) this
  = (effects m this ++ effects (f (result m this)) (after m this))%list.
Proof.
  unfold effects, after, result, bind. destruct (m this) as [[a t] e]. simpl.
  destruct (f a t) as [[b t'] e']. reflexivity.
Qed.

(** *** Conversion to a string *)

Lemma is_num_false (n : Z) (v : jsval) : is_num n v = false <-> v <> JNum n.
Proof.
  split.
  - intros H E. apply is_num_spec in E. congruence.
  - intros H. destruct (is_num n v) eqn:E; [|reflexivity].
    apply is_num_spec in E. contradiction.
Qed.

Lemma concatenate_converted (a b : conversion) (s : string) :
  concatenate a b = Converted s ->
  exists x y, a = Converted x /\ b = Converted y /\ s = x ++ y.
Proof.
  destruct a as [x| |], b as [y| |]; simpl; try discriminate.
  intros H. injection H as <-. now exists x, y.
Qed.

Lemma concatenate_throws (a b : conversion) :
  concatenate a b = Throws <-> a = Throws \/ b = Throws.
Proof.
  destruct a as [x| |], b as [y| |]; simpl; split; auto;
    try discriminate; intros [H | H]; discriminate.
Qed.

(** Where the conversion gives a text, it is the text of [to_string]. *)
Lemma ToString_to_string :
  forall (v : jsval) (s : string), ToString v = Converted s -> to_string v = s.
Proof.
  fix IH 1. intros [| | [|] | n | t | es ex | ps] s H; simpl in H |- *;
    try (injection H as <-; reflexivity).
  - match type of H with
    | (if ?c then _ else _) = _ => destruct c; [|discriminate]
    end.
    injection H as <-; reflexivity.
  - destruct (has_key "toString" ex); [discriminate|].
    destruct (has_key "join" ex); [injection H as <-; reflexivity|].
    revert s H. induction es as [|x rest IHrest]; intros s H.
    + injection H as <-; reflexivity.
    + assert (Hx : forall sx,
                 match x with
                 | JUndefined | JNull => Converted ""
                 | _ => ToString x
                 end = Converted sx ->
                 match x with
                 | JUndefined | JNull => ""
                 | _ => to_string x
                 end = sx).
      { intros sx Hsx. pose proof (IH x sx) as IHx.
        destruct x; try (now apply IHx); injection Hsx as <-; reflexivity. }
      apply concatenate_converted in H.
      destruct H as (first & others & Hf & Hr & ->).
      rewrite (Hx first Hf). f_equal.
      destruct rest as [|y rest'].
      * now injection Hr as <-.
      * match type of Hr with
        | match ?j with _ => _ end = _ =>
            destruct j as [tail| |] eqn:Ej; try discriminate Hr
        end.
        injection Hr as <-. f_equal. now apply IHrest.
  - destruct (has_key "toString" ps); [discriminate|].
    injection H as <-; reflexivity.
Qed.

(** Only an object or an array can fail to convert. *)
Lemma ToString_throws_object (v : jsval) :
  ToString v = Throws -> truthy v && typeof_object v = true.
Proof.
  destruct v as [| | [|] | n | t | es ex | ps]; intros H;
    try reflexivity; simpl in H; try discriminate H.
  match type of H with
  | (if ?c then _ else _) = _ => destruct c; discriminate H
  end.
Qed.

(** *** The address builder *)

(** C8, as the code has it.  The address is a function of the options and
    the transport kind alone.  Where the host, the port and the version
    convert to texts, the address is: [ws] or [wss] for the stream kind and
    [http] or [https] for the request kind, the secure form exactly when
    [useTLS] is [true]; then the host; then the port after a colon, left out
    exactly when the port is the number 80; then [/signalk/<version>]; then
    [/stream?subscribe=none] for the stream kind and [/api] for the request
    kind; and it is the address the constructor stores.  The builder throws
    exactly when the host, a port other than 80, or the version throws on
    conversion, which only an object or array does, and an object does
    exactly when it has an entry [toString] of its own. *)
Theorem buildURI_rules (o : Options.t) :
  let tls := is_true (Options.useTLS o) in
  let port_part :=
    if is_num 80 (Options.port o) then Converted ""
    else concatenate (Converted ":") (ToString (Options.port o)) in
  (forall host port_suffix version : string,
      ToString (Options.hostname o) = Converted host ->
      port_part = Converted port_suffix ->
      ToString (Options.version o) = Converted version ->
      buildURI_result o "ws"
      = Converted
          ((if tls then "wss" else "ws") ++ "://" ++ host ++ port_suffix
           ++ "/signalk/" ++ version ++ "/stream?subscribe=none")
      /\ buildURI_result o "http"
         = Converted
             ((if tls then "https" else "http") ++ "://" ++ host
              ++ port_suffix ++ "/signalk/" ++ version ++ "/api"))
  /\ (tls = true <-> Options.useTLS o = JBool true)
  /\ (port_part = Converted "" <-> Options.port o = JNum 80)
  /\ (forall port : string,
        Options.port o <> JNum 80 ->
        ToString (Options.port o) = Converted port ->
        port_part = Converted (":" ++ port))
  /\ (forall protocol : string,
        buildURI_result o protocol = Throws
        <-> ToString (Options.hostname o) = Throws
            \/ (Options.port o <> JNum 80
                /\ ToString (Options.port o) = Throws)
            \/ ToString (Options.version o) = Throws)
  /\ (forall v : jsval,
        ToString v = Throws -> truthy v && typeof_object v = true)
  /\ (forall ps : props,
        ToString (JObj ps) = Throws
        <-> hasOwnProperty (JObj ps) "toString" = true)
  /\ (forall (protocol uri : string),
        buildURI_result o protocol = Converted uri ->
        buildURI o protocol = uri).
Proof.
  intros tls port_part.
  split; [|split; [|split; [|split; [|split; [|split; [|split]]]]]].
  - intros host port_suffix version Hh Hp Hv.
    unfold buildURI_result. fold tls. fold port_part.
    rewrite Hh, Hp, Hv.
    destruct tls; cbn [concatenate String.eqb Ascii.eqb Bool.eqb];
      cbv iota; split; f_equal; simpl;
      repeat rewrite append_assoc; reflexivity.
  - apply is_true_spec.
  - unfold port_part. destruct (is_num 80 (Options.port o)) eqn:E.
    + split; [intros _; now apply is_num_spec | reflexivity].
    + split.
      * destruct (ToString (Options.port o)); simpl; discriminate.
      * intros H. apply is_num_spec in H. congruence.
  - intros port Hn Hp. unfold port_part.
    apply is_num_false in Hn. now rewrite Hn, Hp.
  - intros protocol. unfold buildURI_result.
    assert (Hport :
              (if is_num 80 (Options.port o) then Converted ""
               else concatenate (Converted ":") (ToString (Options.port o)))
              = Throws
              <-> Options.port o <> JNum 80
                  /\ ToString (Options.port o) = Throws).
    { destruct (is_num 80 (Options.port o)) eqn:E.
      - split; [discriminate|]. intros [Hn _].
        apply is_num_spec in E. contradiction.
      - apply is_num_false in E. rewrite concatenate_throws.
        split; [intros [H | H]; [discriminate | auto] | intros [_ H]; auto]. }
    cbv zeta.
    destruct (String.eqb protocol "ws"), (String.eqb protocol "http");
      repeat rewrite concatenate_throws; rewrite Hport;
      (split;
       [intros H;
        repeat match type of H with
               | _ \/ _ => destruct H as [H | H]
               end; try discriminate H; auto
       | intros [H | [H | H]]; auto 10]).
  - exact ToString_throws_object.
  - intros ps. simpl. destruct (has_key "toString" ps);
      split; auto; discriminate.
  - intros protocol uri H. unfold buildURI_result in H. unfold buildURI.
    cbv zeta in H |- *.
    assert (Hcore :
              forall core,
                concatenate
                  (concatenate
                     (concatenate
                        (concatenate
                           (Converted
                              (if is_true (Options.useTLS o)
                               then protocol ++ "s://"
                               else protocol ++ "://"))
                           (ToString (Options.hostname o)))
                        (if is_num 80 (Options.port o) then Converted ""
                         else concatenate (Converted ":")
                                (ToString (Options.port o))))
                     (Converted "/signalk/"))
                  (ToString (Options.version o)) = Converted core ->
                core
                = ((((if is_true (Options.useTLS o)
                      then protocol ++ "s://" else protocol ++ "://")
                     ++ to_string (Options.hostname o))
                    ++ (if is_num 80 (Options.port o) then ""
                        else ":" ++ to_string (Options.port o)))
                   ++ "/signalk/")
                  ++ to_string (Options.version o)).
    { intros core Hc.
      apply concatenate_converted in Hc.
      destruct Hc as (a & version & Ha & Hv & ->).
      apply concatenate_converted in Ha.
      destruct Ha as (b & sep & Hb & Hsep & ->).
      injection Hsep as <-.
      apply concatenate_converted in Hb.
      destruct Hb as (c & port_suffix & Hc & Hp & ->).
      apply concatenate_converted in Hc.
      destruct Hc as (scheme & host & Hs & Hh & ->).
      injection Hs as <-.
      rewrite (ToString_to_string _ _ Hh), (ToString_to_string _ _ Hv).
      destruct (is_num 80 (Options.port o)).
      - now injection Hp as <-.
      - apply concatenate_converted in Hp.
        destruct Hp as (colon & port & Hcolon & Hport & ->).
        injection Hcolon as <-.
        now rewrite (ToString_to_string _ _ Hport). }
    destruct (String.eqb protocol "ws"), (String.eqb protocol "http").
    + apply concatenate_converted in H.
      destruct H as (a & api & Ha & Hapi & ->). injection Hapi as <-.
      apply concatenate_converted in Ha.
      destruct Ha as (core & stream & Hc & Hstream & ->).
      injection Hstream as <-. now rewrite (Hcore core Hc).
    + apply concatenate_converted in H.
      destruct H as (core & stream & Hc & Hstream & ->).
      injection Hstream as <-. now rewrite (Hcore core Hc).
    + apply concatenate_converted in H.
      destruct H as (core & api & Hc & Hapi & ->).
      injection Hapi as <-. now rewrite (Hcore core Hc).
    + symmetry. now apply Hcore.
Qed.

(** *** The state view *)

(** C10.  The [ready] entry of the object returned by [state()] is
    [undefined] for every value of the fields, whatever the readiness flag
    [_fetchReady] holds: the method reads [fetchReady], a name that is no
    property of the object. *)
Theorem state_ready_undefined (this : Connection) :
  get_prop (state this) "ready" = JUndefined
  /\ get_prop (state this) "ready" <> JBool true
  /\ get_prop (state (set__fetchReady true this)) "ready" = JUndefined
  /\ this_get this "_fetchReady" = JBool (_fetchReady this).
Proof.
  repeat split; try reflexivity. cbn. discriminate.
Qed.

Section Properties.

Variable JSON_parse : string -> option jsval.

(** *** Sending while not connected *)

Lemma send_rejected (data : jsval) (this : Connection) :
  connected this = false \/ socket this = None ->
  send JSON_parse data this
  = (SendRejected (Error "Not connected to WebSocket"), this, []).
Proof.
  intros H. unfold send, bind, get.
  destruct H as [H | H]; rewrite H; simpl.
  - reflexivity.
  - rewrite orb_true_r. reflexivity.
Qed.

(** C5.  While [connected] is not [true] or there is no socket, [send]
    returns a promise rejected with the error "Not connected to
    WebSocket", for every argument; it throws nothing, emits no signal,
    hands nothing to a socket and leaves every field as it was. *)
Theorem send_not_connected (data : jsval) (this : Connection) :
  connected this = false \/ socket this = None ->
  send JSON_parse data this
  = (SendRejected (Error "Not connected to WebSocket"), this, [])
  /\ result (send JSON_parse data) this
     = SendRejected (Error "Not connected to WebSocket")
  /\ effects (send JSON_parse data) this = []
  /\ after (send JSON_parse data) this = this.
Proof.
  intros H. unfold result, effects, after.
  rewrite (send_rejected data this H). repeat split.
Qed.

(** *** Requests *)

Lemma no_leading_slash_spec (p : string) :
  no_leading_slash p = true <-> String.prefix "/" p = false.
Proof.
  destruct p as [|c p]; [split; reflexivity|].
  unfold no_leading_slash.
  change (String.prefix "/" (String c p))
    with (if ascii_dec "/" c then String.prefix "" p else false).
  destruct (ascii_dec "/"%char c) as [<- | N].
  - rewrite Ascii.eqb_refl. destruct p; simpl; split; intro H; discriminate H.
  - destruct (Ascii.eqb c "/") eqn:E.
    + apply Ascii.eqb_eq in E. congruence.
    + split; reflexivity.
Qed.

(** C7.  For a path that does not begin with a slash, [fetch] of the
    path and [fetch] of the path with a slash put in front hand the same
    address (and the same options) to the HTTP client, for all options
    and every state of the object. *)
Theorem fetch_leading_slash (p : string) (opts : jsval) (this : Connection) :
  String.prefix "/" p = false ->
  fetch p opts this = fetch ("/" ++ p) opts this.
Proof.
  intros H. apply no_leading_slash_spec in H.
  unfold fetch. rewrite H. reflexivity.
Qed.

(** *** Inbound frames *)

Lemma handshake_not_null (frame : jsval) :
  is_handshake frame = Some true -> is_null frame = false.
Proof. destruct frame; intro H; try reflexivity; discriminate H. Qed.

(** The test of the handshake on a value whose [hasOwnProperty] is the
    inherited one. *)
Lemma is_handshake_inherited (frame : jsval) :
  truthy frame && typeof_object frame = true ->
  hasOwnProperty frame "hasOwnProperty" = false ->
  is_handshake frame
  = Some (hasOwnProperty frame "name" && hasOwnProperty frame "version"
          && hasOwnProperty frame "roles").
Proof.
  intros Ho Hs. unfold is_handshake, method_hasOwnProperty. rewrite Ho, Hs.
  destruct (hasOwnProperty frame "name"); [|reflexivity].
  destruct (hasOwnProperty frame "version"); reflexivity.
Qed.

(** An object or array with an own entry [hasOwnProperty] makes the test
    throw: the handler has recorded the time and ends without a signal. *)
Lemma handshake_test_throws (now : Z) (data : jsval) (this : Connection) :
  truthy (parse_if_string JSON_parse data)
  && typeof_object (parse_if_string JSON_parse data) = true ->
  hasOwnProperty (parse_if_string JSON_parse data) "hasOwnProperty" = true ->
  _onWSMessage JSON_parse now data this
  = (tt, set_lastMessage now this, [Uncaught TypeError]).
Proof.
  intros Ho Hs. unfold _onWSMessage, is_handshake, method_hasOwnProperty.
  rewrite Ho, Hs. reflexivity.
Qed.

(** What [_onWSMessage] can do. *)
Lemma message_cases (now : Z) (data : jsval) (this : Connection) :
  (is_handshake (parse_if_string JSON_parse data) = None
   /\ _onWSMessage JSON_parse now data this
      = (tt, set_lastMessage now this, [Uncaught TypeError]))
  \/ (is_handshake (parse_if_string JSON_parse data) = Some false
      /\ _onWSMessage JSON_parse now data this
         = (tt, set_lastMessage now this,
            [Emit "message" (Val (parse_if_string JSON_parse data))]))
  \/ (is_handshake (parse_if_string JSON_parse data) = Some true
      /\ _onWSMessage JSON_parse now data this
         = (tt,
            set__self (get_prop (parse_if_string JSON_parse data) "self")
              (set__connection (parse_if_string JSON_parse data)
                 (set_lastMessage now this)),
            ([Emit "connectionInfo" (Val (parse_if_string JSON_parse data))]
             ++ (if is_null (get_prop (parse_if_string JSON_parse data) "self")
                 then []
                 else [Emit "self"
                         (Val (get_prop (parse_if_string JSON_parse data)
                                 "self"))])
             ++ [Emit "message" (Val (parse_if_string JSON_parse data))])%list)).
Proof.
  unfold _onWSMessage.
  destruct (is_handshake (parse_if_string JSON_parse data)) as [[|]|] eqn:E.
  - right. right. split; [reflexivity|].
    pose proof (handshake_not_null _ E) as Hn.
    unfold set_connectionInfo, set_self. rewrite Hn.
    destruct (is_null (get_prop (parse_if_string JSON_parse data) "self"));
      reflexivity.
  - right. left. split; reflexivity.
  - left. split; reflexivity.
Qed.

(** C6, as the code has it.  When the data of an inbound frame, parsed if
    it is a string, is an object with the keys [name], [version] and
    [roles] and without a key [hasOwnProperty] of its own, the handler
    stores the whole value as the connection information, emits
    [connectionInfo] with it, emits [self] with the value of its [self]
    entry unless that value is [null], stores that value as [self], and
    then emits [message]. *)
Theorem handshake_frame_received
    (now : Z) (data frame : jsval) (this : Connection) :
  parse_if_string JSON_parse data = frame ->
  truthy frame && typeof_object frame = true ->
  hasOwnProperty frame "hasOwnProperty" = false ->
  hasOwnProperty frame "name" = true ->
  hasOwnProperty frame "version" = true ->
  hasOwnProperty frame "roles" = true ->
  connectionInfo (after (_onWSMessage JSON_parse now data) this) = frame
  /\ self (after (_onWSMessage JSON_parse now data) this)
     = get_prop frame "self"
  /\ effects (_onWSMessage JSON_parse now data) this
     = ([Emit "connectionInfo" (Val frame)]
        ++ (if is_null (get_prop frame "self") then []
            else [Emit "self" (Val (get_prop frame "self"))])
        ++ [Emit "message" (Val frame)])%list.
Proof.
  intros Hp Ho Hs Hn Hv Hr.
  assert (Hh : is_handshake frame = Some true)
    by (rewrite (is_handshake_inherited frame Ho Hs), Hn, Hv, Hr; reflexivity).
  unfold after, effects, connectionInfo, self.
  destruct (message_cases now data this)
    as [(E & _) | [(E & _) | (_ & ->)]];
    rewrite Hp in *; try congruence.
  repeat split.
Qed.

(** *** Outbound frames *)

(** [send] reads [this.useAuthentication]; the option of that name is
    [this.options.useAuthentication]. *)
Lemma this_useAuthentication (this : Connection) :
  this_get this "useAuthentication" = JUndefined.
Proof. reflexivity. Qed.

(** While connected, an object or array handed to [send] reaches the
    socket as its own serialisation: no entry is added. *)
Lemma send_never_injects (data : jsval) (this : Connection) (uri : string) :
  connected this = true ->
  socket this = Some uri ->
  truthy data && typeof_object data = true ->
  send JSON_parse data this
  = (SendUndefined, this, [SocketSend (JStr (text_of data))]).
Proof.
  intros Hc Hs Hd. unfold send, bind, get.
  assert (Hp : parse_if_string JSON_parse data = data)
    by (destruct (object_cases _ Hd) as [(es & ex & ->) | (ps & ->)];
        reflexivity).
  cbv beta. rewrite Hc, Hs, Hp, Hd, this_useAuthentication.
  unfold text_of.
  destruct (object_cases _ Hd) as [(es & ex & ->) | (ps & ->)]; reflexivity.
Qed.

(** *** Login and request enrichment *)



(** What the [then] of the login request can do. *)
Lemma login_then_cases (res : jsval) (this : Connection) :
  (exists err,
     login_then res this
     = (tt, this, [Emit "error" (Err err); UnhandledRejection err])
     /\ (truthy res && typeof_object res = false
         \/ hasOwnProperty res "hasOwnProperty" = true
         \/ hasOwnProperty res "token" = false))
  \/ (truthy res && typeof_object res = true
      /\ hasOwnProperty res "hasOwnProperty" = false
      /\ hasOwnProperty res "token" = true
      /\ exists knd,
          login_then res this
          = (tt,
             set_socket (Some (wsURI this))
               (set__fetchReady true
                  (set__token (mkToken knd (get_prop res "token"))
                     (set__authenticated true this))),
             [Emit "fetchReady" NoArg; SocketOpen (wsURI this)])).
Proof.
  unfold login_then, method_hasOwnProperty, bind, get. cbv beta iota.
  destruct (truthy res) eqn:Et; cbn [negb orb];
    [|left; eexists; split; [reflexivity | auto]].
  destruct (typeof_object res) eqn:Eo; cbn [negb orb];
    [|left; eexists; split; [reflexivity | auto]].
  destruct (hasOwnProperty res "hasOwnProperty") eqn:Es;
    [left; eexists; split; [reflexivity | auto]|].
  destruct (hasOwnProperty res "token") eqn:Ek;
    [|left; eexists; split; [reflexivity | auto]].
  right. repeat split. eexists. reflexivity.
Qed.



(** *** The reconnect decision *)

Lemma fetch_shape (path : string) (opts : jsval) (this : Connection) :
  exists uri opts', fetch path opts this = (uri, this, [HttpRequest uri opts']).
Proof.
  unfold fetch, bind, get, perform, ret. cbv beta iota.
  eexists. eexists. reflexivity.
Qed.

Lemma is_false_false (v : jsval) : is_false v = false <-> v <> JBool false.
Proof.
  split.
  - intros H E. apply is_false_spec in E. congruence.
  - intros H. destruct (is_false v) eqn:E; [|reflexivity].
    apply is_false_spec in E. contradiction.
Qed.

Lemma reconnect_spec (initial : bool) (this : Connection) :
  reconnect_outcome initial this (reconnect initial this).
Proof.
  unfold reconnect, bind, get. cbv beta iota.
  destruct (isConnecting this) eqn:Ec.
  { now apply Reconnect_in_flight. }
  destruct (socket this) as [uri|] eqn:Es.
  { now apply (Reconnect_closes_socket _ _ uri). }
  destruct initial; cbn [negb andb].
  - destruct (is_false (Options.useAuthentication (options this))) eqn:Ea.
    + apply is_false_spec in Ea.
      change (reconnect_outcome true this
                (tt,
                 set_socket (Some (wsURI this))
                   (set__fetchReady true (connecting this)),
                 [Emit "fetchReady" NoArg; SocketOpen (wsURI this)])).
      apply Reconnect_opens; auto.
    + apply is_false_false in Ea.
      destruct (fetch_shape "/auth/login" (authRequest (options this))
                  (connecting this)) as (uri & opts & Hf).
      unfold assign. cbv beta iota. fold (connecting this). rewrite Hf.
      change (reconnect_outcome true this
                (tt, connecting this, [HttpRequest uri opts])).
      apply Reconnect_logs_in; auto.
  - destruct (is_num (_retries this) (Options.maxRetries (options this)))
      eqn:En.
    { apply is_num_spec in En.
      change (reconnect_outcome false this
                (tt, cleaned this, [Emit "hitMaxRetries" NoArg])).
      now apply Reconnect_exhausted. }
    apply is_num_false in En.
    destruct (is_false (Options.reconnect (options this))) eqn:Er.
    { apply is_false_spec in Er.
      change (reconnect_outcome false this (tt, cleaned this, [])).
      apply Reconnect_stops; auto. }
    apply is_false_false in Er.
    destruct (shouldDisconnect this) eqn:Ed.
    { change (reconnect_outcome false this (tt, cleaned this, [])).
      apply Reconnect_stops; auto. }
    destruct (is_false (Options.useAuthentication (options this))) eqn:Ea.
    + apply is_false_spec in Ea.
      change (reconnect_outcome false this
                (tt,
                 set_socket (Some (wsURI this))
                   (set__fetchReady true (connecting this)),
                 [Emit "fetchReady" NoArg; SocketOpen (wsURI this)])).
      apply Reconnect_opens; auto.
    + apply is_false_false in Ea.
      destruct (fetch_shape "/auth/login" (authRequest (options this))
                  (connecting this)) as (uri & opts & Hf).
      unfold assign. cbv beta iota. fold (connecting this). rewrite Hf.
      change (reconnect_outcome false this
                (tt, connecting this, [HttpRequest uri opts])).
      apply Reconnect_logs_in; auto.
Qed.

Lemma reconnect_in_flight (initial : bool) (this : Connection) :
  isConnecting this = true -> reconnect initial this = (tt, this, []).
Proof. intros H. unfold reconnect, bind, get. cbv beta iota. now rewrite H. Qed.

Lemma reconnect_exhausted (this : Connection) :
  isConnecting this = false ->
  socket this = None ->
  Options.maxRetries (options this) = JNum (_retries this) ->
  reconnect false this = (tt, cleaned this, [Emit "hitMaxRetries" NoArg]).
Proof.
  intros Hc Hs Hn. unfold reconnect, bind, get. cbv beta iota.
  rewrite Hc, Hs. cbn [negb andb].
  apply is_num_spec in Hn. rewrite Hn. reflexivity.
Qed.

Lemma disconnect_eq (this : Connection) :
  disconnect this = reconnect false (set_shouldDisconnect true this).
Proof.
  unfold disconnect, bind, assign. cbv beta iota.
  now destruct (reconnect false (set_shouldDisconnect true this))
    as [[[] t] e].
Qed.

Lemma onWSError_eq (err : jsval) (this : Connection) :
  _onWSError err this
  = (tt,
     after (reconnect false) (set__retries (incr (_retries this)) this),
     Emit "error" (Val err)
     :: effects (reconnect false) (set__retries (incr (_retries this)) this)).
Proof.
  unfold _onWSError, bind, get, assign, emit, perform, after, effects.
  cbv beta iota.
  now destruct (reconnect false (set__retries (incr (_retries this)) this))
    as [[[] t] e].
Qed.

Lemma onWSClose_eq (evt : jsval) (this : Connection) (uri : string) :
  socket this = Some uri ->
  _onWSClose evt this
  = (tt, after (reconnect false) (closed this),
     Emit "disconnect" (Val evt) :: effects (reconnect false) (closed this)).
Proof.
  intros Hs.
  unfold _onWSClose, bind, get, assign, emit, perform, after, effects.
  cbv beta iota. rewrite Hs. cbv beta iota. fold (closed this).
  now destruct (reconnect false (closed this)) as [[[] t] e].
Qed.

Lemma onWSClose_null (evt : jsval) (this : Connection) :
  socket this = None -> _onWSClose evt this = (tt, this, [Uncaught TypeError]).
Proof.
  intros Hs. unfold _onWSClose, bind, get. cbv beta iota. now rewrite Hs.
Qed.

Lemma send_state (data : jsval) (this : Connection) :
  after (send JSON_parse data) this = this.
Proof.
  unfold send, after, bind, get. cbv beta iota.
  destruct (negb (connected this)
            || match socket this with None => true | Some _ => false end);
    reflexivity.
Qed.

Lemma fetch_state (path : string) (opts : jsval) (this : Connection) :
  after (fetch path opts) this = this.
Proof.
  destruct (fetch_shape path opts this) as (uri & opts' & H).
  unfold after. now rewrite H.
Qed.

Lemma run_cons (ev : event) (evs : list event) (this : Connection) :
  after (run JSON_parse (ev :: evs)) this
  = after (run JSON_parse evs) (after (step JSON_parse ev) this)
  /\ effects (run JSON_parse (ev :: evs)) this
     = (effects (step JSON_parse ev) this
        ++ effects (run JSON_parse evs) (after (step JSON_parse ev) this))%list.
Proof.
  simpl run. split; [apply after_bind | apply effects_bind].
Qed.

Lemma disconnect_after (this : Connection) :
  after disconnect this
  = after (reconnect false) (set_shouldDisconnect true this)
  /\ effects disconnect this
     = effects (reconnect false) (set_shouldDisconnect true this).
Proof. unfold after, effects. now rewrite disconnect_eq. Qed.

Lemma onWSError_after (err : jsval) (this : Connection) :
  after (_onWSError err) this
  = after (reconnect false) (set__retries (incr (_retries this)) this)
  /\ effects (_onWSError err) this
     = Emit "error" (Val err)
       :: effects (reconnect false)
            (set__retries (incr (_retries this)) this).
Proof.
  unfold after at 1, effects at 1. now rewrite onWSError_eq.
Qed.

Lemma onWSClose_after (evt : jsval) (this : Connection) (uri : string) :
  socket this = Some uri ->
  after (_onWSClose evt) this = after (reconnect false) (closed this)
  /\ effects (_onWSClose evt) this
     = Emit "disconnect" (Val evt)
       :: effects (reconnect false) (closed this).
Proof.
  intros Hs. unfold after at 1, effects at 1.
  now rewrite (onWSClose_eq evt this uri Hs).
Qed.

(** *** The configured default token type *)

Lemma reconnect_prefix (initial : bool) (this : Connection) :
  _bearerTokenPrefix (after (reconnect initial) this) = _bearerTokenPrefix this.
Proof.
  unfold after. destruct (reconnect_spec initial this); reflexivity.
Qed.

Lemma step_prefix (ev : event) (this : Connection) :
  _bearerTokenPrefix (after (step JSON_parse ev) this)
  = _bearerTokenPrefix this.
Proof.
  destruct ev; simpl step.
  - reflexivity.
  - unfold _onWSMessage, set_connectionInfo, set_self.
    destruct (is_handshake (parse_if_string JSON_parse data)) as [[|]|];
      [|reflexivity|reflexivity].
    destruct (is_null (parse_if_string JSON_parse data));
      destruct (is_null (get_prop (parse_if_string JSON_parse data) "self"));
      reflexivity.
  - destruct (onWSError_after err this) as [-> _]. now rewrite reconnect_prefix.
  - destruct (socket this) as [uri|] eqn:Es.
    + destruct (onWSClose_after evt this uri Es) as [-> _].
      now rewrite reconnect_prefix.
    + unfold after. now rewrite (onWSClose_null evt this Es).
  - destruct o as [res | err]; [|reflexivity].
    unfold login_settled, login_then, after, bind, get. cbv beta iota.
    destruct (negb (truthy res) || negb (typeof_object res));
      [reflexivity|].
    destruct (method_hasOwnProperty res "token") as [[|]|]; reflexivity.
  - destruct (disconnect_after this) as [-> _]. now rewrite reconnect_prefix.
  - apply reconnect_prefix.
  - now rewrite after_bind, send_state.
  - now rewrite after_bind, fetch_state.
  - reflexivity.
  - reflexivity.
Qed.

(** The default token type of the object is, throughout its life, the
    [bearerTokenPrefix] option, or [Bearer] when that is not set. *)
Lemma default_token_type (o : Options.t) (evs : list event) :
  _bearerTokenPrefix (after (run JSON_parse evs) (constructed o))
  = js_or (Options.bearerTokenPrefix o) (JStr "Bearer").
Proof.
  assert (H : forall this,
             _bearerTokenPrefix (after (run JSON_parse evs) this)
             = _bearerTokenPrefix this).
  { induction evs as [|ev evs IH]; intro this; [reflexivity|].
    destruct (run_cons ev evs this) as [-> _]. now rewrite IH, step_prefix. }
  rewrite H. unfold constructed, construct. cbn [fst].
  now rewrite reconnect_prefix.
Qed.

(** *** A failed login *)

Lemma login_failure_eq (o : settled) (this : Connection) :
  login_failed o ->
  exists err,
    login_settled o this
    = (tt, this, [Emit "error" (Err err); UnhandledRejection err]).
Proof.
  destruct o as [res | err]; simpl; intros H.
  - destruct (login_then_cases res this)
      as [(err & He & _) | (_ & _ & Hk & _)]; [|congruence].
    exists err. exact He.
  - eexists. reflexivity.
Qed.

Lemma call_keeps_stuck (ev : event) (this : Connection) :
  is_call ev = true ->
  stuck this ->
  stuck (after (step JSON_parse ev) this)
  /\ (exists added,
        _events (after (step JSON_parse ev) this)
        = (_events this ++ added)%list)
  /\ forallb (fun e => negb (opens_socket e))
       (effects (step JSON_parse ev) this) = true.
Proof.
  intros Hc [Hi Hs]. destruct ev; try discriminate Hc; simpl step.
  - unfold after, effects. rewrite disconnect_eq.
    rewrite (reconnect_in_flight false (set_shouldDisconnect true this) Hi).
    repeat split; auto. exists []. cbn. now rewrite app_nil_r.
  - unfold after, effects. rewrite (reconnect_in_flight initial this Hi).
    repeat split; auto. exists []. cbn. now rewrite app_nil_r.
  - rewrite after_bind, effects_bind, send_state.
    unfold effects at 1.
    rewrite (send_rejected data this (or_intror Hs)).
    repeat split; auto. exists []. cbn. now rewrite app_nil_r.
  - rewrite after_bind, effects_bind, fetch_state.
    destruct (fetch_shape path opts this) as (uri & opts' & H).
    unfold effects at 1. rewrite H.
    repeat split; auto. exists []. cbn. now rewrite app_nil_r.
  - repeat split; auto. exists []. cbn. now rewrite app_nil_r.
  - repeat split; auto. exists [name]. reflexivity.
Qed.

Lemma calls_keep_stuck (calls : list event) (this : Connection) :
  forallb is_call calls = true ->
  stuck this ->
  stuck (after (run JSON_parse calls) this)
  /\ (exists added,
        _events (after (run JSON_parse calls) this)
        = (_events this ++ added)%list)
  /\ forallb (fun e => negb (opens_socket e))
       (effects (run JSON_parse calls) this) = true.
Proof.
  revert this. induction calls as [|ev calls IH]; intros this Hc Hst.
  - repeat split; try apply Hst. exists []. cbn. now rewrite app_nil_r.
  - simpl in Hc. apply andb_prop in Hc. destruct Hc as [Hev Hc].
    destruct (run_cons ev calls this) as [-> ->].
    destruct (call_keeps_stuck ev this Hev Hst) as (Hst1 & [a1 He1] & Hn1).
    destruct (IH _ Hc Hst1) as (Hst2 & [a2 He2] & Hn2).
    split; [exact Hst2|]. split.
    + exists (a1 ++ a2)%list. now rewrite He2, He1, app_assoc.
    + rewrite forallb_app. now rewrite Hn1, Hn2.
Qed.

(** C9.  When [reconnect] has issued the login request (so authentication
    is not switched off and there is no socket) and the request fails, by
    rejection or by resolving to a value without a [token] entry, the
    failure is signalled as [error] and changes no field: [isConnecting]
    is still [true].  From then on every [reconnect] returns at its first
    guard, changing nothing, and every [disconnect] only sets the
    disconnect intent; whatever the consumer calls, [isConnecting] stays
    [true], no socket is opened and no listener is released. *)
Theorem login_failure_sticks
    (initial : bool) (this0 : Connection) (uri : string) (opts : jsval)
    (o : settled) (calls : list event) :
  effects (reconnect initial) this0 = [HttpRequest uri opts] ->
  login_failed o ->
  forallb is_call calls = true ->
  let this := after (reconnect initial) this0 in
  let final := after (run JSON_parse calls) (after (login_settled o) this) in
  Options.useAuthentication (options this0) <> JBool false
  /\ after (login_settled o) this = this
  /\ isConnecting this = true /\ socket this = None
  /\ (forall b, reconnect b this = (tt, this, []))
  /\ disconnect this = (tt, set_shouldDisconnect true this, [])
  /\ isConnecting final = true
  /\ socket final = None
  /\ (exists added, _events final = (_events this ++ added)%list)
  /\ forallb (fun e => negb (opens_socket e))
       (effects (run JSON_parse calls) (after (login_settled o) this)) = true.
Proof.
  intros Hreq Hfail Hcalls this final.
  assert (Hshape : Options.useAuthentication (options this0) <> JBool false
                   /\ this = connecting this0 /\ socket this0 = None).
  { subst this. unfold effects, after in *.
    destruct (reconnect_spec initial this0); simpl in Hreq |- *;
      try discriminate Hreq; auto. }
  destruct Hshape as (Hauth & Hthis & Hs0).
  assert (Hst : stuck this) by (rewrite Hthis; split; [reflexivity | exact Hs0]).
  destruct (login_failure_eq o this Hfail) as [err Herr].
  assert (Hsame : after (login_settled o) this = this)
    by (unfold after; now rewrite Herr).
  destruct Hst as [Hi Hs].
  split; [exact Hauth|]. split; [exact Hsame|].
  split; [exact Hi|]. split; [exact Hs|].
  split; [intro b; now apply reconnect_in_flight|].
  split.
  { rewrite disconnect_eq. now apply reconnect_in_flight. }
  subst final. rewrite Hsame.
  destruct (calls_keep_stuck calls this Hcalls (conj Hi Hs))
    as ([Hi' Hs'] & Hev & Hno).
  auto.
Qed.

(** *** The disconnect intent *)

Lemma reconnect_keeps_intent (this : Connection) :
  shouldDisconnect this = true ->
  shouldDisconnect (after (reconnect false) this) = true.
Proof.
  intros H. unfold after.
  destruct (reconnect_spec false this)
    as [ | | | | ? ? [? | (_ & _ & Hd)] | ? ? ? ? [? | (_ & _ & Hd)]];
    simpl; auto; congruence.
Qed.

Lemma message_keeps_intent (now : Z) (data : jsval) (this : Connection) :
  shouldDisconnect (after (_onWSMessage JSON_parse now data) this)
  = shouldDisconnect this.
Proof.
  unfold _onWSMessage, set_connectionInfo, set_self.
  destruct (is_handshake (parse_if_string JSON_parse data)) as [[|]|];
    [|reflexivity|reflexivity].
  destruct (is_null (parse_if_string JSON_parse data));
    destruct (is_null (get_prop (parse_if_string JSON_parse data) "self"));
    reflexivity.
Qed.

Lemma login_keeps_intent (o : settled) (this : Connection) :
  shouldDisconnect (after (login_settled o) this) = shouldDisconnect this.
Proof.
  destruct o as [res | err]; [|reflexivity].
  unfold login_settled, login_then, after, bind, get. cbv beta iota.
  destruct (negb (truthy res) || negb (typeof_object res));
    [reflexivity|].
  destruct (method_hasOwnProperty res "token") as [[|]|]; reflexivity.
Qed.

Lemma step_keeps_intent (ev : event) (this : Connection) :
  ev <> CallReconnect true ->
  shouldDisconnect this = true ->
  shouldDisconnect (after (step JSON_parse ev) this) = true.
Proof.
  intros Hev H. destruct ev; simpl step.
  - exact H.
  - now rewrite message_keeps_intent.
  - unfold after. rewrite onWSError_eq. simpl.
    now apply reconnect_keeps_intent.
  - unfold after. destruct (socket this) as [uri|] eqn:Es.
    + rewrite (onWSClose_eq evt this uri Es). simpl.
      now apply reconnect_keeps_intent.
    + now rewrite (onWSClose_null evt this Es).
  - now rewrite login_keeps_intent.
  - unfold after. rewrite disconnect_eq.
    now apply reconnect_keeps_intent.
  - destruct initial; [congruence|]. now apply reconnect_keeps_intent.
  - now rewrite after_bind, send_state.
  - now rewrite after_bind, fetch_state.
  - exact H.
  - exact H.
Qed.

Lemma run_keeps_intent (evs : list event) (this : Connection) :
  Forall (fun ev => ev <> CallReconnect true) evs ->
  shouldDisconnect this = true ->
  shouldDisconnect (after (run JSON_parse evs) this) = true.
Proof.
  intros Hevs. revert this.
  induction Hevs as [|ev evs Hev _ IH]; intros this H.
  - exact H.
  - destruct (run_cons ev evs this) as [-> _].
    apply IH. now apply step_keeps_intent.
Qed.

Lemma close_with_intent (evt : jsval) (this : Connection) (uri : string) :
  socket this = Some uri ->
  shouldDisconnect this = true ->
  after (_onWSClose evt) this = cleaned (closed this)
  /\ (effects (_onWSClose evt) this = [Emit "disconnect" (Val evt)]
      \/ (Options.maxRetries (options this) = JNum (incr (_retries this))
          /\ effects (_onWSClose evt) this
             = [Emit "disconnect" (Val evt); Emit "hitMaxRetries" NoArg])).
Proof.
  intros Hs Hd. unfold after, effects.
  rewrite (onWSClose_eq evt this uri Hs). unfold after, effects.
  destruct (reconnect_spec false (closed this))
    as [Hc | ? Hc Hk | Hc Hk _ Hn | Hc Hk _ Hn Hr
        | Hc Hk [? | (_ & _ & Hx)] | ? ? Hc Hk [? | (_ & _ & Hx)]];
    simpl in *; try congruence; auto.
Qed.

(** C2.  After [disconnect()], and whatever happens in between short of
    a [reconnect(true)], the next close of the socket starts no connection
    attempt: the intent set by [disconnect] is still set when the close
    handler calls [reconnect], which therefore releases the listeners and
    the credential and neither opens a socket nor issues a login request;
    the object is left without socket, not connected and not connecting.
    The only signals are [disconnect] and, when the close brings the retry
    counter to [maxRetries], [hitMaxRetries]. *)
Theorem disconnect_then_close
    (this : Connection) (evs : list event) (evt : jsval) :
  Forall (fun ev => ev <> CallReconnect true) evs ->
  let this1 := after (run JSON_parse evs) (after disconnect this) in
  let final := after (_onWSClose evt) this1 in
  socket this1 <> None ->
  shouldDisconnect (after disconnect this) = true
  /\ shouldDisconnect this1 = true
  /\ no_attempt (effects (_onWSClose evt) this1) = true
  /\ _events final = []
  /\ socket final = None
  /\ connected final = false
  /\ isConnecting final = false
  /\ (effects (_onWSClose evt) this1 = [Emit "disconnect" (Val evt)]
      \/ effects (_onWSClose evt) this1
         = [Emit "disconnect" (Val evt); Emit "hitMaxRetries" NoArg]).
Proof.
  intros Hevs this1 final Hsock.
  assert (H0 : shouldDisconnect (after disconnect this) = true).
  { unfold after. rewrite disconnect_eq.
    now apply reconnect_keeps_intent. }
  assert (H1 : shouldDisconnect this1 = true)
    by now apply run_keeps_intent.
  destruct (socket this1) as [uri|] eqn:Es; [|congruence].
  destruct (close_with_intent evt this1 uri Es H1) as [Hafter Heff].
  subst final. rewrite Hafter.
  split; [exact H0|]. split; [exact H1|].
  split; [|repeat split; try reflexivity; tauto].
  destruct Heff as [-> | [_ ->]]; reflexivity.
Qed.

(** *** The retry counter *)

Lemma incr_ge (n : Z) : n <= incr n.
Proof. unfold incr. destruct (n <? 2 ^ 53); lia. Qed.

Lemma incr_exact (n : Z) : n < 2 ^ 53 -> incr n = n + 1.
Proof.
  intros H. unfold incr. destruct (n <? 2 ^ 53) eqn:E; [reflexivity|].
  apply Z.ltb_ge in E. lia.
Qed.

Lemma count_emit_app (name : string) (a b : list effect) :
  count_emit name (a ++ b)
  = (count_emit name a + count_emit name b)%nat.
Proof.
  induction a as [|e a IH]; simpl; [reflexivity|].
  destruct e; auto. rewrite IH. lia.
Qed.

(** [reconnect] leaves the options and the counter alone, and signals
    [hitMaxRetries] only when the counter equals [maxRetries]. *)
Lemma reconnect_counter (initial : bool) (this : Connection) :
  options (after (reconnect initial) this) = options this
  /\ _retries (after (reconnect initial) this) = _retries this
  /\ (count_emit "hitMaxRetries" (effects (reconnect initial) this) <> O ->
      Options.maxRetries (options this) = JNum (_retries this)).
Proof.
  unfold after, effects.
  destruct (reconnect_spec initial this); simpl; repeat split; auto;
    intros Hx; try contradiction; now elim Hx.
Qed.

Lemma message_counter (now : Z) (data : jsval) (this : Connection) :
  options (after (_onWSMessage JSON_parse now data) this) = options this
  /\ _retries (after (_onWSMessage JSON_parse now data) this) = _retries this
  /\ count_emit "hitMaxRetries"
       (effects (_onWSMessage JSON_parse now data) this) = O.
Proof.
  unfold _onWSMessage, set_connectionInfo, set_self.
  destruct (is_handshake (parse_if_string JSON_parse data)) as [[|]|];
    [|repeat split|repeat split].
  destruct (is_null (parse_if_string JSON_parse data));
    destruct (is_null (get_prop (parse_if_string JSON_parse data) "self"));
    repeat split.
Qed.

Lemma login_counter (o : settled) (this : Connection) :
  options (after (login_settled o) this) = options this
  /\ _retries (after (login_settled o) this) = _retries this
  /\ count_emit "hitMaxRetries" (effects (login_settled o) this) = O.
Proof.
  destruct o as [res | err]; [|repeat split].
  unfold login_settled, login_then, after, effects, bind, get.
  cbv beta iota.
  destruct (negb (truthy res) || negb (typeof_object res));
    [repeat split|].
  destruct (method_hasOwnProperty res "token") as [[|]|]; repeat split.
Qed.

(** Every step keeps the options, raises the counter exactly at a
    failure of the transport, and signals [hitMaxRetries] only with the
    counter it leaves equal to [maxRetries]. *)
Lemma step_counter (ev : event) (this : Connection) :
  options (after (step JSON_parse ev) this) = options this
  /\ _retries (after (step JSON_parse ev) this)
     = (if is_failure ev this then incr (_retries this) else _retries this)
  /\ (count_emit "hitMaxRetries" (effects (step JSON_parse ev) this) <> O ->
      Options.maxRetries (options this)
      = JNum (_retries (after (step JSON_parse ev) this))).
Proof.
  destruct ev; simpl step; simpl is_failure.
  - repeat split. intros H; now elim H.
  - destruct (message_counter now data this) as (-> & -> & ->).
    repeat split. intros H; now elim H.
  - destruct (onWSError_after err this) as [-> ->].
    destruct (reconnect_counter false
                (set__retries (incr (_retries this)) this))
      as (Ho & Hr & Hh).
    rewrite Ho, Hr. repeat split. intros H. exact (Hh H).
  - destruct (socket this) as [uri|] eqn:Es.
    + destruct (onWSClose_after evt this uri Es) as [-> ->].
      destruct (reconnect_counter false (closed this)) as (Ho & Hr & Hh).
      rewrite Ho, Hr. repeat split. intros H. exact (Hh H).
    + unfold after, effects. rewrite (onWSClose_null evt this Es).
      repeat split. intros H; now elim H.
  - destruct (login_counter o this) as (-> & -> & ->).
    repeat split. intros H; now elim H.
  - destruct (disconnect_after this) as [-> ->].
    destruct (reconnect_counter false (set_shouldDisconnect true this))
      as (Ho & Hr & Hh).
    rewrite Ho, Hr. repeat split. intros H. exact (Hh H).
  - destruct (reconnect_counter initial this) as (Ho & Hr & Hh).
    rewrite Ho, Hr. repeat split. intros H. exact (Hh H).
  - rewrite after_bind, effects_bind, send_state.
    repeat split. unfold effects, send, bind, get. cbv beta iota.
    destruct (negb (connected this)
              || match socket this with None => true | Some _ => false end);
      simpl; intros H; now elim H.
  - rewrite after_bind, effects_bind, fetch_state.
    destruct (fetch_shape path opts this) as (uri & opts' & H).
    unfold effects at 1. rewrite H.
    repeat split. intros H'; now elim H'.
  - repeat split. intros H; now elim H.
  - repeat split. intros H; now elim H.
Qed.

Lemma failures_nonneg (evs : list event) (this : Connection) :
  0 <= failures JSON_parse evs this.
Proof.
  revert this. induction evs as [|ev evs IH]; intro this; simpl; [lia|].
  specialize (IH (after (step JSON_parse ev) this)).
  destruct (is_failure ev this); lia.
Qed.

Lemma run_options (evs : list event) (this : Connection) :
  options (after (run JSON_parse evs) this) = options this.
Proof.
  revert this. induction evs as [|ev evs IH]; intro this; [reflexivity|].
  destruct (run_cons ev evs this) as [-> _].
  rewrite IH. apply step_counter.
Qed.

(** The counter is the number of failures, as long as that is exact. *)
Lemma run_counts_failures (evs : list event) (this : Connection) :
  _retries this + failures JSON_parse evs this <= 2 ^ 53 ->
  _retries (after (run JSON_parse evs) this)
  = _retries this + failures JSON_parse evs this.
Proof.
  revert this. induction evs as [|ev evs IH]; intros this H.
  - simpl. unfold after. simpl. lia.
  - destruct (run_cons ev evs this) as [-> _].
    simpl failures in *.
    pose proof (failures_nonneg evs (after (step JSON_parse ev) this)) as Hn.
    destruct (step_counter ev this) as (_ & Hr & _).
    destruct (is_failure ev this).
    + rewrite incr_exact in Hr by lia. rewrite IH; rewrite Hr; lia.
    + rewrite IH; rewrite Hr; lia.
Qed.

Lemma run_counter_grows (evs : list event) (this : Connection) :
  _retries this <= _retries (after (run JSON_parse evs) this).
Proof.
  revert this. induction evs as [|ev evs IH]; intro this.
  - unfold after. simpl. lia.
  - destruct (run_cons ev evs this) as [-> _].
    specialize (IH (after (step JSON_parse ev) this)).
    destruct (step_counter ev this) as (_ & Hr & _).
    pose proof (incr_ge (_retries this)).
    destruct (is_failure ev this); lia.
Qed.

(** A run that signals [hitMaxRetries] ends with the counter at or above
    [maxRetries]. *)
Lemma run_signal_needs_counter
    (n : Z) (evs : list event) (this : Connection) :
  Options.maxRetries (options this) = JNum n ->
  count_emit "hitMaxRetries" (effects (run JSON_parse evs) this) <> O ->
  n <= _retries (after (run JSON_parse evs) this).
Proof.
  revert this. induction evs as [|ev evs IH]; intros this Hn Hc.
  - now elim Hc.
  - destruct (run_cons ev evs this) as [Ha He]. rewrite Ha.
    rewrite He, count_emit_app in Hc.
    destruct (step_counter ev this) as (Ho & _ & Hh).
    destruct (count_emit "hitMaxRetries" (effects (step JSON_parse ev) this))
      eqn:E.
    + apply IH; [now rewrite Ho | exact Hc].
    + assert (Hm : Options.maxRetries (options this)
                   = JNum (_retries (after (step JSON_parse ev) this)))
        by (apply Hh; discriminate).
      rewrite Hn in Hm. injection Hm as ->.
      apply run_counter_grows.
Qed.

Lemma constructed_counter (o : Options.t) :
  options (constructed o) = o
  /\ _retries (constructed o) = 0
  /\ count_emit "hitMaxRetries" (snd (construct o)) = O.
Proof.
  unfold constructed, construct. cbn [fst snd].
  match goal with
  | |- context [after (reconnect true) ?i] =>
      destruct (reconnect_counter true i) as (Ho & Hr & Hh);
      unfold after, effects in *;
      destruct (reconnect_spec true i)
  end; simpl in *; repeat split; auto; discriminate.
Qed.

Lemma lifecycle_call_exhausted (ev : event) (this : Connection) :
  is_lifecycle_call ev = true ->
  exhausted this ->
  exhausted (after (step JSON_parse ev) this)
  /\ no_attempt (effects (step JSON_parse ev) this) = true.
Proof.
  intros Hev (Hc & Hs & Hn).
  destruct ev as [| | | | | |[|]| | | |]; try discriminate Hev; simpl step.
  - destruct (disconnect_after this) as [-> ->]. unfold after, effects.
    rewrite reconnect_exhausted by assumption.
    repeat split; assumption.
  - unfold after, effects. rewrite reconnect_exhausted by assumption.
    repeat split; assumption.
Qed.

Lemma lifecycle_calls_exhausted (calls : list event) (this : Connection) :
  forallb is_lifecycle_call calls = true ->
  exhausted this ->
  exhausted (after (run JSON_parse calls) this)
  /\ no_attempt (effects (run JSON_parse calls) this) = true.
Proof.
  revert this. induction calls as [|ev calls IH]; intros this Hc Hx.
  - split; [exact Hx | reflexivity].
  - simpl in Hc. apply andb_prop in Hc. destruct Hc as [Hev Hc].
    destruct (run_cons ev calls this) as [-> ->].
    destruct (lifecycle_call_exhausted ev this Hev Hx) as [Hx1 Hn1].
    destruct (IH _ Hc Hx1) as [Hx2 Hn2].
    split; [exact Hx2|].
    unfold no_attempt in *. rewrite forallb_app. now rewrite Hn1, Hn2.
Qed.

(** [reconnect] signals [hitMaxRetries] exactly when it was not called by
    the constructor, found neither an attempt under way nor a socket, and
    found the counter equal to [maxRetries]. *)
Lemma reconnect_signals_iff (initial : bool) (this : Connection) :
  count_emit "hitMaxRetries" (effects (reconnect initial) this) <> O
  <-> initial = false
      /\ isConnecting this = false
      /\ socket this = None
      /\ Options.maxRetries (options this) = JNum (_retries this).
Proof.
  unfold effects.
  destruct (reconnect_spec initial this)
    as [Hc | uri Hc Hs | Hc Hs Hi Hn | Hc Hs Hi Hn Hd | Hc Hs Hi Ha
        | uri opts Hc Hs Hi Ha]; cbn.
  - split; [intros H; now elim H | intros (_ & H & _); congruence].
  - split; [intros H; now elim H | intros (_ & _ & H & _); congruence].
  - split; [auto | discriminate].
  - split; [intros H; now elim H | intros (_ & _ & _ & H); contradiction].
  - split; [intros H; now elim H|]. intros (Hi' & _ & _ & H).
    destruct Hi as [Hi | (Hn & _)]; [congruence | contradiction].
  - split; [intros H; now elim H|]. intros (Hi' & _ & _ & H).
    destruct Hi as [Hi | (Hn & _)]; [congruence | contradiction].
Qed.

(** The error handler raises the counter and signals the error; while an
    attempt is under way or a socket is held, it signals no limit and
    releases no listener, whatever the counter has become. *)
Lemma error_guarded (err : jsval) (this : Connection) :
  isConnecting this = true \/ socket this <> None ->
  count_emit "hitMaxRetries" (effects (_onWSError err) this) = O
  /\ _events (after (_onWSError err) this) = _events this
  /\ _retries (after (_onWSError err) this) = incr (_retries this).
Proof.
  intros Hg. destruct (onWSError_after err this) as [-> ->].
  set (this' := set__retries (incr (_retries this)) this).
  assert (Hg' : isConnecting this' = true \/ socket this' <> None)
    by exact Hg.
  unfold effects, after.
  destruct (reconnect_spec false this')
    as [Hc | uri Hc Hs | Hc Hs Hi Hn | Hc Hs Hi Hn Hd | Hc Hs Hi Ha
        | uri opts Hc Hs Hi Ha];
    try (destruct Hg' as [Hg' | Hg']; congruence);
    repeat split; reflexivity.
Qed.

(** C1, as the code has it.  Let [maxRetries] be the number [n], at most
    2^53.  When the failures of the transport since construction (errors,
    and closes of the live socket) number [n - 1] and the socket then
    closes, no [hitMaxRetries] has been signalled before; the [reconnect]
    called by the close handler finds the counter equal to [n], signals
    [hitMaxRetries] once, and releases the listeners and the credential
    without opening a socket or issuing a login request.  The object is
    left without socket and not connecting, and no later [reconnect()] or
    [disconnect()] starts a connection attempt.  The counter is compared
    for equality, and only in a [reconnect] that was not called by the
    constructor and found neither an attempt under way nor a socket: any
    [reconnect] signals [hitMaxRetries] exactly then.  The error handler,
    which raises the counter, signals no limit and releases no listener
    while an attempt is under way or a socket is held. *)
Theorem max_retries_on_close
    (o : Options.t) (n : Z) (evs : list event) (evt : jsval)
    (calls : list event) :
  Options.maxRetries o = JNum n ->
  n <= 2 ^ 53 ->
  failures JSON_parse evs (constructed o) = n - 1 ->
  socket (after (run JSON_parse evs) (constructed o)) <> None ->
  forallb is_lifecycle_call calls = true ->
  let this := after (run JSON_parse evs) (constructed o) in
  let final := after (_onWSClose evt) this in
  count_emit "hitMaxRetries"
    (snd (construct o) ++ effects (run JSON_parse evs) (constructed o)) = O
  /\ effects (_onWSClose evt) this
     = [Emit "disconnect" (Val evt); Emit "hitMaxRetries" NoArg]
  /\ _retries final = n
  /\ _events final = []
  /\ _authenticated final = false
  /\ _token final = mkToken (JStr "") (JStr "")
  /\ socket final = None
  /\ isConnecting final = false
  /\ no_attempt (effects (run JSON_parse calls) final) = true
  /\ socket (after (run JSON_parse calls) final) = None
  /\ (forall (initial : bool) (t : Connection),
        options t = o ->
        (count_emit "hitMaxRetries" (effects (reconnect initial) t) <> O
         <-> initial = false
             /\ isConnecting t = false
             /\ socket t = None
             /\ _retries t = n))
  /\ (forall (err : jsval) (t : Connection),
        isConnecting t = true \/ socket t <> None ->
        count_emit "hitMaxRetries" (effects (_onWSError err) t) = O
        /\ _events (after (_onWSError err) t) = _events t
        /\ _retries (after (_onWSError err) t) = incr (_retries t)).
Proof.
  intros Hmax Hle Hfail Hsock Hcalls this final.
  change (socket this <> None) in Hsock.
  destruct (constructed_counter o) as (Ho & Hr0 & Hc0).
  pose proof (failures_nonneg evs (constructed o)) as Hnn.
  assert (Hr : _retries this = n - 1).
  { subst this. rewrite run_counts_failures; rewrite Hr0; lia. }
  assert (Hopt : options this = o)
    by (subst this; now rewrite run_options).
  assert (Hquiet : count_emit "hitMaxRetries"
                     (effects (run JSON_parse evs) (constructed o)) = O).
  { destruct (count_emit "hitMaxRetries"
                (effects (run JSON_parse evs) (constructed o))) eqn:E;
      [reflexivity|].
    assert (Hge : n <= _retries this).
    { apply run_signal_needs_counter; [now rewrite Ho | now rewrite E]. }
    lia. }
  destruct (socket this) as [uri|] eqn:Es; [|congruence].
  destruct (onWSClose_after evt this uri Es) as [Ha He].
  assert (Hx : reconnect false (closed this)
               = (tt, cleaned (closed this),
                  [Emit "hitMaxRetries" NoArg])).
  { apply reconnect_exhausted; try reflexivity.
    cbn [closed options _retries set__retries set_socket set_isConnecting
           set_connected].
    rewrite Hopt, Hmax, Hr, incr_exact by lia. f_equal. lia. }
  assert (Hfinal : final = cleaned (closed this)).
  { subst final. rewrite Ha. unfold after. now rewrite Hx. }
  assert (Heff : effects (_onWSClose evt) this
                 = [Emit "disconnect" (Val evt);
                    Emit "hitMaxRetries" NoArg]).
  { rewrite He. unfold effects. now rewrite Hx. }
  assert (Hrn : _retries final = n).
  { rewrite Hfinal. cbn. rewrite Hr, incr_exact by lia. lia. }
  assert (Hex : exhausted final).
  { repeat split; try (rewrite Hfinal; reflexivity).
    rewrite Hrn, Hfinal. cbn [cleaned closed options set__events set__token
      set__authenticated set__retries set_socket set_isConnecting
      set_connected].
    now rewrite Hopt. }
  destruct (lifecycle_calls_exhausted calls final Hcalls Hex)
    as [(_ & Hs2 & _) Hn2].
  split. { rewrite count_emit_app, Hc0, Hquiet. reflexivity. }
  split; [exact Heff|]. split; [exact Hrn|].
  split; [rewrite Hfinal; reflexivity|].
  split; [rewrite Hfinal; reflexivity|].
  split; [rewrite Hfinal; reflexivity|].
  split; [rewrite Hfinal; reflexivity|].
  split; [rewrite Hfinal; reflexivity|].
  split; [assumption|]. split; [assumption|].
  split.
  - intros initial t Ht. rewrite reconnect_signals_iff, Ht, Hmax.
    split; intros (Hi & Hc & Hs & Hn); repeat split; try assumption;
      congruence.
  - intros err t. apply error_guarded.
Qed.

(** Once the counter is past [maxRetries], no run signals
    [hitMaxRetries]. *)
Lemma past_limit_never_signals
    (n : Z) (evs : list event) (this : Connection) :
  Options.maxRetries (options this) = JNum n ->
  n < _retries this ->
  count_emit "hitMaxRetries" (effects (run JSON_parse evs) this) = O.
Proof.
  revert this. induction evs as [|ev evs IH]; intros this Hn Hlt.
  - reflexivity.
  - destruct (run_cons ev evs this) as [_ ->]. rewrite count_emit_app.
    destruct (step_counter ev this) as (Ho & Hr & Hh).
    assert (Hlt' : n < _retries (after (step JSON_parse ev) this)).
    { rewrite Hr. pose proof (incr_ge (_retries this)).
      destruct (is_failure ev this); lia. }
    rewrite IH by (rewrite ?Ho; assumption).
    destruct (count_emit "hitMaxRetries" (effects (step JSON_parse ev) this))
      eqn:E; [reflexivity|].
    assert (Hm : Options.maxRetries (options this)
                 = JNum (_retries (after (step JSON_parse ev) this)))
      by (apply Hh; discriminate).
    rewrite Hn in Hm. injection Hm as Hm. lia.
Qed.

End Properties.

(** C8 at the sample options: host [localhost], port 3000, version [v1],
    no TLS. *)
Lemma buildURI_rules_witness :
  buildURI_result (sample_options true 3) "ws"
  = Converted "ws://localhost:3000/signalk/v1/stream?subscribe=none"
  /\ buildURI_result (sample_options true 3) "http"
     = Converted "http://localhost:3000/signalk/v1/api".
Proof.
  destruct (buildURI_rules (sample_options true 3)) as (H & _).
  exact (H "localhost" ":3000" "v1" eq_refl eq_refl eq_refl).
Defined.

(** C8 as stated fails at a host that is an object with an entry [toString]
    of its own that is no function: appending the host to the address
    throws a [TypeError], for the stream kind and for the request kind. *)
Lemma buildURI_host_not_convertible :
  ToString (Options.hostname unconvertible_host_options) = Throws
  /\ buildURI_result unconvertible_host_options "ws" = Throws
  /\ buildURI_result unconvertible_host_options "http" = Throws.
Proof.
  repeat split; reflexivity.
Qed.

(** C5 at an object whose login request is still under way. *)
Lemma send_not_connected_witness :
  let this := constructed (sample_options true 3) in
  let data := JObj [("a", JNum 1)] in
  send sample_parse data this
  = (SendRejected (Error "Not connected to WebSocket"), this, [])
  /\ result (send sample_parse data) this
     = SendRejected (Error "Not connected to WebSocket")
  /\ effects (send sample_parse data) this = []
  /\ after (send sample_parse data) this = this.
Proof.
  intros this data.
  apply (send_not_connected sample_parse data this). right. reflexivity.
Defined.

(** C7 at the login path. *)
Lemma fetch_leading_slash_witness :
  fetch "auth/login" JUndefined (constructed (sample_options true 3))
  = fetch "/auth/login" JUndefined (constructed (sample_options true 3)).
Proof.
  apply (fetch_leading_slash "auth/login"). reflexivity.
Defined.

(** C6 at the handshake frame of the example. *)
Lemma handshake_frame_received_witness :
  let this := constructed (sample_options false 3) in
  let m := _onWSMessage sample_parse 1700000000000
             (JStr (text_of (handshake_frame vessel))) in
  connectionInfo (after m this) = handshake_frame vessel
  /\ self (after m this) = vessel
  /\ effects m this
     = [Emit "connectionInfo" (Val (handshake_frame vessel));
        Emit "self" (Val vessel);
        Emit "message" (Val (handshake_frame vessel))].
Proof.
  apply (handshake_frame_received sample_parse 1700000000000
           (JStr (text_of (handshake_frame vessel)))
           (handshake_frame vessel)); reflexivity.
Defined.

(** C6 as stated fails at a handshake frame whose [self] entry is [null]:
    the frame has the three keys and [connectionInfo] is emitted, yet no
    [self] signal is. *)
Lemma handshake_null_self_silent :
  let this := constructed (sample_options false 3) in
  let frame := handshake_frame JNull in
  let m := _onWSMessage sample_parse 1700000000000 (JStr (text_of frame)) in
  parse_if_string sample_parse (JStr (text_of frame)) = frame
  /\ is_handshake frame = Some true
  /\ count_emit "connectionInfo" (effects m this) = 1%nat
  /\ count_emit "self" (effects m this) = 0%nat.
Proof. vm_compute. repeat split. Qed.

(** C3 fails on the code.  The object is authenticated with the token
    [abc], authentication is switched on in its options and its socket is
    open; the object [{a: 1}] handed to [send] reaches the socket as the
    serialisation of [{a: 1}] itself, which holds no [token] entry: the
    guard of the injection reads [this.useAuthentication], which is
    [undefined]. *)
Theorem send_token_missing :
  Options.useAuthentication (options logged_in) = JBool true
  /\ _authenticated logged_in = true
  /\ connected logged_in = true
  /\ token (_token logged_in) = JStr "abc"
  /\ this_get logged_in "useAuthentication" = JUndefined
  /\ send sample_parse (JObj [("a", JNum 1)]) logged_in
     = (SendUndefined, logged_in,
        [SocketSend (JStr (text_of (JObj [("a", JNum 1)])))])
  /\ text_of (JObj [("a", JNum 1)])
     <> text_of (JObj [("a", JNum 1); ("token", JStr "abc")])
  /\ includes "token" (text_of (JObj [("a", JNum 1)])) = false.
Proof.
  repeat split; try reflexivity. vm_compute. discriminate.
Qed.



(** C9 at an object whose login request is answered with status 401. *)
Lemma login_failure_sticks_witness :
  let this := constructed (sample_options true 3) in
  let o :=
    fetch_then sample_parse "http://localhost:3000/signalk/v1/auth/login"
      (mkResponse false 401 "Unauthorized" None "") in
  let calls :=
    [CallReconnect false; CallDisconnect; CallReconnect true;
     CallSend (JStr "ping"); CallOn "connect"] in
  let final := after (run sample_parse calls) (after (login_settled o) this) in
  Options.useAuthentication (options (fresh (sample_options true 3)))
  <> JBool false
  /\ after (login_settled o) this = this
  /\ isConnecting this = true /\ socket this = None
  /\ (forall b, reconnect b this = (tt, this, []))
  /\ disconnect this = (tt, set_shouldDisconnect true this, [])
  /\ isConnecting final = true
  /\ socket final = None
  /\ (exists added, _events final = (_events this ++ added)%list)
  /\ forallb (fun e => negb (opens_socket e))
       (effects (run sample_parse calls) (after (login_settled o) this))
     = true.
Proof.
  intros this o calls final.
  eapply (login_failure_sticks sample_parse true
            (fresh (sample_options true 3)) _ _ o calls).
  - vm_compute. reflexivity.
  - exact I.
  - reflexivity.
Defined.

(** C2 at an open connection that receives a frame between the call of
    [disconnect] and the close of the socket. *)
Lemma disconnect_then_close_witness :
  let this := after _onWSOpen (constructed (sample_options false 3)) in
  let evs := [WSMessage 1700000000000 (JStr "hello")] in
  let evt := JObj [("code", JNum 1000)] in
  let this1 := after (run sample_parse evs) (after disconnect this) in
  let final := after (_onWSClose evt) this1 in
  shouldDisconnect (after disconnect this) = true
  /\ shouldDisconnect this1 = true
  /\ no_attempt (effects (_onWSClose evt) this1) = true
  /\ _events final = []
  /\ socket final = None
  /\ connected final = false
  /\ isConnecting final = false
  /\ (effects (_onWSClose evt) this1 = [Emit "disconnect" (Val evt)]
      \/ effects (_onWSClose evt) this1
         = [Emit "disconnect" (Val evt); Emit "hitMaxRetries" NoArg]).
Proof.
  intros this evs evt this1 final.
  apply (disconnect_then_close sample_parse this evs evt).
  - repeat constructor; discriminate.
  - discriminate.
Defined.

(** C1 at [maxRetries] = 2, with a connection that is refused: the error
    is the first failure and the close that follows it the second. *)
Lemma max_retries_on_close_witness :
  let o := sample_options false 2 in
  let evs := [WSError (JStr "refused")] in
  let evt := JObj [("code", JNum 1006)] in
  let calls := [CallReconnect false; CallDisconnect] in
  let this := after (run sample_parse evs) (constructed o) in
  let final := after (_onWSClose evt) this in
  count_emit "hitMaxRetries"
    (snd (construct o) ++ effects (run sample_parse evs) (constructed o)) = O
  /\ effects (_onWSClose evt) this
     = [Emit "disconnect" (Val evt); Emit "hitMaxRetries" NoArg]
  /\ _retries final = 2
  /\ _events final = []
  /\ _authenticated final = false
  /\ _token final = mkToken (JStr "") (JStr "")
  /\ socket final = None
  /\ isConnecting final = false
  /\ no_attempt (effects (run sample_parse calls) final) = true
  /\ socket (after (run sample_parse calls) final) = None.
Proof.
  intros o evs evt calls this final.
  destruct (max_retries_on_close sample_parse o 2 evs evt calls)
    as (H1 & H2 & H3 & H4 & H5 & H6 & H7 & H8 & H9 & H10 & _).
  - reflexivity.
  - vm_compute. discriminate.
  - reflexivity.
  - discriminate.
  - reflexivity.
  - repeat split; assumption.
Defined.

(** C1 as stated fails at [maxRetries] = 1 with a connection that is
    refused.  The error is the first failure: the counter is 1, and the
    [reconnect] its handler calls returns at the guard on [isConnecting]
    without a signal.  The close that follows raises the counter to 2, its
    [reconnect] finds 2 different from 1 and opens a new socket; the
    listener of [hitMaxRetries] is still registered and was never called. *)
Lemma error_then_close_skips_limit :
  let o := sample_options false 1 in
  let this0 := after (on "hitMaxRetries") (constructed o) in
  let this1 := after (_onWSError (JStr "refused")) this0 in
  let this2 := after (_onWSClose (JObj [("code", JNum 1006)])) this1 in
  Options.maxRetries o = JNum 1
  /\ _retries this1 = 1
  /\ effects (_onWSError (JStr "refused")) this0
     = [Emit "error" (Val (JStr "refused"))]
  /\ _retries this2 = 2
  /\ effects (_onWSClose (JObj [("code", JNum 1006)])) this1
     = [Emit "disconnect" (Val (JObj [("code", JNum 1006)]));
        Emit "fetchReady" NoArg;
        SocketOpen "ws://localhost:3000/signalk/v1/stream?subscribe=none"]
  /\ socket this2
     = Some "ws://localhost:3000/signalk/v1/stream?subscribe=none"
  /\ _events this2 = ["hitMaxRetries"].
Proof.
  repeat split; reflexivity.
Qed.

(** From there on the signal is out of reach: the counter is past the
    limit, and no run of events and calls signals [hitMaxRetries]. *)
Lemma error_then_close_never_signals (evs : list event) :
  let o := sample_options false 1 in
  let this2 :=
    after
      (run sample_parse
         [CallOn "hitMaxRetries"; WSError (JStr "refused");
          WSClose (JObj [("code", JNum 1006)])])
      (constructed o) in
  count_emit "hitMaxRetries" (effects (run sample_parse evs) this2) = O.
Proof.
  intros o this2.
  apply (past_limit_never_signals sample_parse 1); [reflexivity|].
  vm_compute. reflexivity.
Qed.

(** ** Further properties of the class *)

Section Lifecycle.

Variable JSON_parse : string -> option jsval.

(** *** The flags and the socket *)

Lemma incr_positive (n : Z) : 0 <= n -> 0 < incr n.
Proof. intros H. unfold incr. destruct (n <? 2 ^ 53) eqn:E; lia. Qed.

(** Closes a goal about the flags from the facts of the case at hand. *)
Ltac flags :=
  unfold consistent in *; cbn in *; intros;
  repeat match goal with
         | H : _ /\ _ |- _ => destruct H
         end;
  repeat split; intros;
  repeat match goal with
         | H : ?a -> _, H1 : ?a |- _ =>
             match type of a with Prop => specialize (H H1) end
         | H : _ /\ _ |- _ => destruct H
         | H : _ \/ _ |- _ => destruct H
         end;
  try congruence; try lia; auto;
  try (left; congruence); try (right; congruence).

Lemma reconnect_consistent (initial : bool) (this : Connection) :
  consistent this -> consistent (after (reconnect initial) this).
Proof.
  intros H. unfold after.
  destruct (reconnect_spec initial this); cbn [fst snd]; flags.
Qed.

Lemma message_flags (now : Z) (data : jsval) (this : Connection) :
  connected (after (_onWSMessage JSON_parse now data) this) = connected this
  /\ isConnecting (after (_onWSMessage JSON_parse now data) this)
     = isConnecting this
  /\ socket (after (_onWSMessage JSON_parse now data) this) = socket this
  /\ _retries (after (_onWSMessage JSON_parse now data) this) = _retries this.
Proof.
  unfold _onWSMessage, set_connectionInfo, set_self.
  destruct (is_handshake (parse_if_string JSON_parse data)) as [[|]|];
    [|repeat split|repeat split].
  destruct (is_null (parse_if_string JSON_parse data));
    destruct (is_null (get_prop (parse_if_string JSON_parse data) "self"));
    repeat split.
Qed.

Lemma login_consistent (o : settled) (this : Connection) :
  consistent this -> consistent (after (login_settled o) this).
Proof.
  intros H. destruct o as [res | err]; [|exact H].
  unfold after. simpl login_settled.
  destruct (login_then_cases res this)
    as [(err & -> & _) | (_ & _ & _ & knd & ->)]; cbn [fst snd]; flags.
Qed.

(** Every event the transports can deliver and every call keeps the flags in
    agreement with the socket. *)
Lemma step_consistent (ev : event) (this : Connection) :
  enabled ev this = true ->
  consistent this ->
  consistent (after (step JSON_parse ev) this).
Proof.
  intros He H. destruct ev; simpl step; simpl in He.
  - destruct (socket this) eqn:Es; [|discriminate]. flags.
  - destruct (message_flags now data this) as (Hc & Hi & Hs & Hr).
    unfold consistent. rewrite Hc, Hi, Hs, Hr. exact H.
  - destruct (onWSError_after err this) as [-> _].
    apply reconnect_consistent.
    pose proof (incr_positive (_retries this)). flags.
  - destruct (socket this) as [uri|] eqn:Es; [|discriminate].
    destruct (onWSClose_after evt this uri Es) as [-> _].
    apply reconnect_consistent.
    pose proof (incr_positive (_retries this)). flags.
  - now apply login_consistent.
  - destruct (disconnect_after this) as [-> _].
    apply reconnect_consistent. flags.
  - now apply reconnect_consistent.
  - now rewrite after_bind, send_state.
  - now rewrite after_bind, fetch_state.
  - flags.
  - flags.
Qed.

Lemma run_consistent (evs : list event) (this : Connection) :
  deliverable JSON_parse evs this = true ->
  consistent this ->
  consistent (after (run JSON_parse evs) this).
Proof.
  revert this. induction evs as [|ev evs IH]; intros this Hd H.
  - exact H.
  - simpl in Hd. apply andb_prop in Hd. destruct Hd as [He Hd].
    destruct (run_cons JSON_parse ev evs this) as [-> _].
    apply IH; [exact Hd|]. now apply step_consistent.
Qed.

Lemma constructed_consistent (o : Options.t) : consistent (constructed o).
Proof.
  unfold constructed, construct, after. cbn [fst].
  destruct (reconnect_spec true (fresh o)); cbn [fst snd]; flags.
Qed.

(** X1.  From construction on, under every run of deliverable events and
    calls, an object that is connected holds a socket and is not connecting:
    [state()] never reports [connecting] and [connected] both [true], and
    while [connected] is [true] [send] does not reject. *)
Theorem connected_holds_socket
    (o : Options.t) (evs : list event) (data : jsval) :
  deliverable JSON_parse evs (constructed o) = true ->
  let this := after (run JSON_parse evs) (constructed o) in
  (connected this = true -> socket this <> None /\ isConnecting this = false)
  /\ ~ (get_prop (state this) "connecting" = JBool true
        /\ get_prop (state this) "connected" = JBool true)
  /\ (connected this = true ->
      result (send JSON_parse data) this = SendUndefined).
Proof.
  intros Hd this.
  destruct (run_consistent evs (constructed o) Hd (constructed_consistent o))
    as (_ & _ & Hl).
  fold this in Hl. split; [exact Hl|]. split.
  - cbn. intros [Hi Hc]. injection Hi as Hi. injection Hc as Hc.
    destruct (Hl Hc). congruence.
  - intros Hc. destruct (Hl Hc) as [Hs _].
    unfold result, send, bind, get. cbv beta iota. rewrite Hc.
    destruct (socket this); [reflexivity | congruence].
Qed.

(** *** The retry limit *)

Lemma reconnect_signal_state (initial : bool) (this : Connection) :
  count_emit "hitMaxRetries" (effects (reconnect initial) this) <> O ->
  isConnecting (after (reconnect initial) this) = false
  /\ socket (after (reconnect initial) this) = None.
Proof.
  unfold after, effects.
  destruct (reconnect_spec initial this); cbn; intros Hx;
    try (now elim Hx). auto.
Qed.

(** A step that signals [hitMaxRetries] leaves the object without socket and
    not connecting. *)
Lemma step_signal_state (ev : event) (this : Connection) :
  count_emit "hitMaxRetries" (effects (step JSON_parse ev) this) <> O ->
  isConnecting (after (step JSON_parse ev) this) = false
  /\ socket (after (step JSON_parse ev) this) = None.
Proof.
  destruct ev; simpl step.
  - intros H; now elim H.
  - destruct (message_counter JSON_parse now data this) as (_ & _ & ->).
    intros H; now elim H.
  - destruct (onWSError_after err this) as [-> ->].
    apply reconnect_signal_state.
  - destruct (socket this) as [uri|] eqn:Es.
    + destruct (onWSClose_after evt this uri Es) as [-> ->].
      apply reconnect_signal_state.
    + unfold effects. rewrite (onWSClose_null evt this Es).
      intros H; now elim H.
  - destruct (login_counter o this) as (_ & _ & ->). intros H; now elim H.
  - destruct (disconnect_after this) as [-> ->].
    apply reconnect_signal_state.
  - apply reconnect_signal_state.
  - rewrite effects_bind. unfold effects, send, bind, get. cbv beta iota.
    destruct (negb (connected this)
              || match socket this with None => true | Some _ => false end);
      simpl; intros H; now elim H.
  - rewrite effects_bind.
    destruct (fetch_shape path opts this) as (uri & opts' & H).
    unfold effects at 1. rewrite H. intros H'; now elim H'.
  - intros H; now elim H.
  - intros H; now elim H.
Qed.

Lemma run_quiet_without_limit (evs : list event) (this : Connection) :
  (forall n, Options.maxRetries (options this) = JNum n -> n <= 0) ->
  consistent this ->
  deliverable JSON_parse evs this = true ->
  count_emit "hitMaxRetries" (effects (run JSON_parse evs) this) = O.
Proof.
  revert this. induction evs as [|ev evs IH]; intros this Hn Hc Hd.
  - reflexivity.
  - simpl in Hd. apply andb_prop in Hd. destruct Hd as [He Hd].
    destruct (run_cons JSON_parse ev evs this) as [_ ->].
    rewrite count_emit_app.
    pose proof (step_consistent ev this He Hc) as Hc'.
    destruct (step_counter JSON_parse ev this) as (Ho & _ & Hh).
    rewrite IH; [| now rewrite Ho | exact Hc' | exact Hd].
    destruct (Nat.eq_dec
                (count_emit "hitMaxRetries"
                   (effects (step JSON_parse ev) this)) O) as [E | Hne];
      [now rewrite E|].
    exfalso.
    destruct (step_signal_state ev this Hne) as [Hi Hs].
    pose proof (Hn _ (Hh Hne)) as Hle.
    destruct Hc' as (H0 & Hz & _).
    destruct Hz as [Hz | Hz]; [lia | congruence | congruence].
Qed.

(** X2.  When [maxRetries] is not a positive number (it is missing, not a
    number, zero or negative), [hitMaxRetries] is never signalled: not by the
    constructor and not by any run of deliverable events and calls.  A limit
    of zero therefore means no limit. *)
Theorem no_limit_without_positive_maxRetries
    (o : Options.t) (evs : list event) :
  (forall n, Options.maxRetries o = JNum n -> n <= 0) ->
  deliverable JSON_parse evs (constructed o) = true ->
  count_emit "hitMaxRetries"
    (snd (construct o) ++ effects (run JSON_parse evs) (constructed o)) = O.
Proof.
  intros Hn Hd.
  destruct (constructed_counter o) as (Ho & _ & Hc).
  rewrite count_emit_app, Hc.
  rewrite run_quiet_without_limit; auto.
  - now rewrite Ho.
  - apply constructed_consistent.
Qed.

(** X3.  The retry counter is only ever raised: no run lowers it, and in
    particular the opening of a socket does not reset it.  As long as the
    count is exact (at most 2^53), the counter after a run is the counter
    before it plus the number of socket errors and closes of the live socket
    in the run. *)
Theorem retries_accumulate (evs : list event) (this : Connection) :
  _retries this + failures JSON_parse evs this <= 2 ^ 53 ->
  _retries this <= _retries (after (run JSON_parse evs) this)
  /\ _retries (after (run JSON_parse evs) this)
     = _retries this + failures JSON_parse evs this
  /\ _retries (after _onWSOpen this) = _retries this.
Proof.
  intros H. split; [apply run_counter_grows|].
  split; [now apply run_counts_failures | reflexivity].
Qed.

(** X4.  A socket that errors and then closes is counted twice: the error
    handler leaves the socket in place (its [reconnect] returns at the guard
    on [isConnecting] or asks the socket to close) and the close handler
    raises the counter again. *)
Theorem error_then_close_counts_twice
    (err evt : jsval) (this : Connection) (uri : string) :
  socket this = Some uri ->
  _retries this + 2 <= 2 ^ 53 ->
  socket (after (_onWSError err) this) = Some uri
  /\ (effects (_onWSError err) this = [Emit "error" (Val err)]
      \/ effects (_onWSError err) this
         = [Emit "error" (Val err); SocketClose])
  /\ _retries (after (_onWSClose evt) (after (_onWSError err) this))
     = _retries this + 2.
Proof.
  intros Hs Hle.
  destruct (onWSError_after err this) as [Ha He].
  assert (H1 : after (_onWSError err) this
               = set__retries (incr (_retries this)) this
               /\ (effects (_onWSError err) this = [Emit "error" (Val err)]
                   \/ effects (_onWSError err) this
                      = [Emit "error" (Val err); SocketClose])).
  { rewrite Ha, He. unfold after, effects.
    destruct (reconnect_spec false
                (set__retries (incr (_retries this)) this));
      cbn in *; try congruence; auto. }
  destruct H1 as [H1 H2]. rewrite H1. split; [exact Hs|]. split; [exact H2|].
  destruct (step_counter JSON_parse (WSClose evt)
              (set__retries (incr (_retries this)) this)) as (_ & Hr & _).
  simpl step in Hr. simpl is_failure in Hr. rewrite Hr.
  cbn [socket set__retries]. rewrite Hs. cbn [_retries set__retries].
  rewrite !incr_exact; rewrite ?incr_exact; lia.
Qed.

Lemma lifecycle_call_signals (ev : event) (this : Connection) :
  is_lifecycle_call ev = true ->
  exhausted this ->
  effects (step JSON_parse ev) this = [Emit "hitMaxRetries" NoArg].
Proof.
  intros Hev (Hc & Hs & Hn).
  destruct ev as [| | | | | |[|]| | | |]; try discriminate Hev; simpl step.
  - destruct (disconnect_after this) as [_ ->]. unfold effects.
    now rewrite reconnect_exhausted.
  - unfold effects. now rewrite reconnect_exhausted.
Qed.

(** X5.  Once the retry limit has been reached, every later [reconnect()]
    and [disconnect()] signals [hitMaxRetries] again, releases the listeners
    again and starts no connection attempt: the signal is given once per
    call, not once per object. *)
Theorem exhausted_signals_each_call (calls : list event) (this : Connection) :
  exhausted this ->
  forallb is_lifecycle_call calls = true ->
  count_emit "hitMaxRetries" (effects (run JSON_parse calls) this)
  = length calls
  /\ no_attempt (effects (run JSON_parse calls) this) = true
  /\ _events (after (run JSON_parse calls) this)
     = match calls with [] => _events this | _ :: _ => [] end.
Proof.
  intros Hx Hc.
  destruct (lifecycle_calls_exhausted JSON_parse calls this Hc Hx) as [_ Hn].
  split; [|split; [exact Hn|]].
  - revert this Hx Hc Hn.
    induction calls as [|ev calls IH]; intros this Hx Hc _; [reflexivity|].
    simpl in Hc. apply andb_prop in Hc. destruct Hc as [Hev Hc].
    destruct (run_cons JSON_parse ev calls this) as [_ ->].
    rewrite count_emit_app, (lifecycle_call_signals ev this Hev Hx).
    destruct (lifecycle_call_exhausted JSON_parse ev this Hev Hx) as [Hx1 _].
    destruct (lifecycle_calls_exhausted JSON_parse calls _ Hc Hx1) as [_ Hn1].
    rewrite (IH _ Hx1 Hc Hn1). reflexivity.
  - destruct calls as [|ev calls]; [reflexivity|].
    clear Hn. revert ev this Hx Hc.
    induction calls as [|ev' calls IH]; intros ev this Hx Hc.
    + simpl in Hc. rewrite andb_true_r in Hc.
      destruct (run_cons JSON_parse ev [] this) as [-> _].
      destruct Hx as (Hi & Hs & Hm).
      destruct ev as [| | | | | |[|]| | | |]; try discriminate Hc;
        simpl step.
      * destruct (disconnect_after this) as [-> _]. unfold after.
        now rewrite reconnect_exhausted.
      * unfold after. now rewrite reconnect_exhausted.
    + simpl in Hc. apply andb_prop in Hc. destruct Hc as [Hev Hc].
      destruct (run_cons JSON_parse ev (ev' :: calls) this) as [-> _].
      destruct (lifecycle_call_exhausted JSON_parse ev this Hev Hx) as [Hx1 _].
      now apply IH.
Qed.

(** The close handler stops for good when the disconnect intent is set or
    reconnection is switched off. *)
Lemma close_stops (evt : jsval) (this : Connection) (uri : string) :
  socket this = Some uri ->
  Options.reconnect (options this) = JBool false
  \/ shouldDisconnect this = true ->
  after (_onWSClose evt) this = cleaned (closed this)
  /\ (effects (_onWSClose evt) this = [Emit "disconnect" (Val evt)]
      \/ (Options.maxRetries (options this) = JNum (incr (_retries this))
          /\ effects (_onWSClose evt) this
             = [Emit "disconnect" (Val evt); Emit "hitMaxRetries" NoArg])).
Proof.
  intros Hs Hd.
  destruct (onWSClose_after evt this uri Hs) as [-> ->].
  unfold after, effects.
  destruct (reconnect_spec false (closed this))
    as [Hc | ? Hc Hk | Hc Hk _ Hn | Hc Hk _ Hn Hr
        | Hc Hk [? | (_ & Hx & Hy)] | ? ? Hc Hk [? | (_ & Hx & Hy)]];
    simpl in *; try congruence; auto;
    destruct Hd; congruence.
Qed.

(** X6.  With the option [reconnect] set to [false], no [reconnect()]
    without the initial flag starts a connection attempt, in any state of
    the object, and the first close of the socket releases the listeners and
    the credential and leaves the object without socket. *)
Theorem reconnect_switched_off
    (this : Connection) (evt : jsval) (uri : string) :
  Options.reconnect (options this) = JBool false ->
  socket this = Some uri ->
  no_attempt (effects (reconnect false) (set_socket None this)) = true
  /\ no_attempt (effects (reconnect false) this) = true
  /\ no_attempt (effects (_onWSClose evt) this) = true
  /\ after (_onWSClose evt) this = cleaned (closed this)
  /\ _events (after (_onWSClose evt) this) = []
  /\ _authenticated (after (_onWSClose evt) this) = false.
Proof.
  intros Hr Hs.
  assert (Hany : forall t, Options.reconnect (options t) = JBool false ->
                           no_attempt (effects (reconnect false) t) = true).
  { intros t Ht. unfold effects.
    destruct (reconnect_spec false t)
      as [ | | | | ? ? [? | (_ & Hx & _)] | ? ? ? ? [? | (_ & Hx & _)]];
      try reflexivity; congruence. }
  split; [now apply Hany|]. split; [now apply Hany|].
  destruct (close_stops evt this uri Hs (or_introl Hr)) as [Ha He].
  rewrite Ha. repeat split.
  destruct He as [-> | [_ ->]]; reflexivity.
Qed.

(** X7.  A close of the socket that was asked for by [disconnect()] still
    counts as a retry, and when it brings the counter to [maxRetries] the
    handler signals [hitMaxRetries] after [disconnect]. *)
Theorem requested_close_can_signal_limit
    (this : Connection) (evt : jsval) (uri : string) :
  socket this = Some uri ->
  Options.maxRetries (options this) = JNum (incr (_retries this)) ->
  _retries (after (_onWSClose evt) (after disconnect this))
  = incr (_retries this)
  /\ effects (_onWSClose evt) (after disconnect this)
     = [Emit "disconnect" (Val evt); Emit "hitMaxRetries" NoArg].
Proof.
  intros Hs Hm.
  destruct (disconnect_after this) as [Ha _].
  assert (Hd : after disconnect this = set_shouldDisconnect true this).
  { rewrite Ha. unfold after.
    destruct (reconnect_spec false (set_shouldDisconnect true this));
      simpl in *; congruence. }
  rewrite Hd.
  destruct (onWSClose_after evt (set_shouldDisconnect true this) uri Hs)
    as [-> ->].
  unfold after, effects.
  rewrite reconnect_exhausted;
    [split; reflexivity | reflexivity | reflexivity | exact Hm].
Qed.

(** X8.  With reconnection switched on, no disconnect intent, and a counter
    that the close does not bring to [maxRetries], the close handler starts
    over: it signals [disconnect] and then either opens a socket at the same
    address (authentication switched off) or issues the login request again
    (otherwise).  The listeners and the credential are kept, and the counter
    keeps its raised value. *)
Theorem close_starts_over (this : Connection) (evt : jsval) (uri : string) :
  socket this = Some uri ->
  Options.maxRetries (options this) <> JNum (incr (_retries this)) ->
  Options.reconnect (options this) <> JBool false ->
  shouldDisconnect this = false ->
  (Options.useAuthentication (options this) = JBool false ->
   _onWSClose evt this
   = (tt,
      set_socket (Some (wsURI this))
        (set__fetchReady true (connecting (closed this))),
      [Emit "disconnect" (Val evt); Emit "fetchReady" NoArg;
       SocketOpen (wsURI this)]))
  /\ (Options.useAuthentication (options this) <> JBool false ->
      exists address opts,
        _onWSClose evt this
        = (tt, connecting (closed this),
           [Emit "disconnect" (Val evt); HttpRequest address opts]))
  /\ _events (after (_onWSClose evt) this) = _events this
  /\ _token (after (_onWSClose evt) this) = _token this
  /\ _authenticated (after (_onWSClose evt) this) = _authenticated this
  /\ _retries (after (_onWSClose evt) this) = incr (_retries this)
  /\ isConnecting (after (_onWSClose evt) this) = true.
Proof.
  intros Hs Hm Hr Hd.
  rewrite (onWSClose_eq evt this uri Hs).
  destruct (onWSClose_after evt this uri Hs) as [-> _].
  unfold after, effects.
  destruct (reconnect_spec false (closed this))
    as [Hc | ? Hc Hk | Hc Hk _ Hn | Hc Hk _ Hn [Hx | Hx]
        | Hc Hk _ Ha | address opts Hc Hk _ Ha];
    simpl in *; try congruence.
  - repeat split; try reflexivity. intros Hb. congruence.
  - repeat split; try reflexivity.
    + intros Hb. congruence.
    + intros _. exists address, opts. reflexivity.
Qed.


(** *** Requests and the credential *)

Lemma fetch_login (o : Options.t) (this : Connection) :
  fetch "/auth/login" (authRequest o) this
  = (auxiliary_address (httpURI this ++ "/auth/login"), this,
     [HttpRequest (auxiliary_address (httpURI this ++ "/auth/login"))
        (login_options o)]).
Proof.
  unfold fetch, bind, get, perform, ret, auxiliary_address.
  change (no_leading_slash "/auth/login") with false. cbv beta iota zeta.
  change (includes "auth/login" "/auth/login") with true.
  cbn [negb]. rewrite andb_false_r. reflexivity.
Qed.

(** X10.  The login request [reconnect] issues is a POST whose body is the
    JSON text of the user name and the password, each turned into a string
    and empty when the option is missing or falsy.  Its headers are the two
    JSON defaults: it carries no [Authorization] header, also when the
    object still holds a credential.  Its address is the request address
    with [/auth/login] appended and the three rewrites applied. *)
Theorem login_request_shape
    (initial : bool) (this : Connection) (address : string) (opts : jsval) :
  effects (reconnect initial) this = [HttpRequest address opts] ->
  address = auxiliary_address (httpURI this ++ "/auth/login")
  /\ opts = login_options (options this)
  /\ get_prop opts "method" = JStr "POST"
  /\ get_prop (get_prop opts "headers") "Authorization" = JUndefined
  /\ get_prop opts "body"
     = JStr (text_of
               (JObj [("username",
                       JStr (to_string
                               (js_or (Options.username (options this))
                                  (JStr ""))));
                      ("password",
                       JStr (to_string
                               (js_or (Options.password (options this))
                                  (JStr ""))))])).
Proof.
  intros H.
  assert (Hboth : address = auxiliary_address (httpURI this ++ "/auth/login")
                  /\ opts = login_options (options this)).
  { revert H. unfold effects, reconnect, bind, get. cbv beta iota.
    destruct (isConnecting this); [discriminate|].
    destruct (socket this); [discriminate|].
    destruct (negb initial
              && is_num (_retries this) (Options.maxRetries (options this)));
      [discriminate|].
    destruct (negb initial && is_false (Options.reconnect (options this)));
      [discriminate|].
    destruct (negb initial && shouldDisconnect this); [discriminate|].
    destruct (is_false (Options.useAuthentication (options this)));
      [discriminate|].
    unfold assign. cbv beta iota. rewrite fetch_login.
    cbn. intros H. injection H as H1 H2. auto. }
  destruct Hboth as [-> ->]. repeat split.
Qed.


(** X12.  When the login answer is an object without an entry
    [hasOwnProperty] of its own, with a [token] entry and a [type] entry
    that is a string with something other than white space in it, that
    string, untrimmed, is the kind of the stored credential; the handler
    then marks the object ready, signals [fetchReady] and opens the socket at
    the stream address. *)
Theorem login_explicit_type (res : jsval) (t : string) (this : Connection) :
  truthy res && typeof_object res = true ->
  hasOwnProperty res "hasOwnProperty" = false ->
  hasOwnProperty res "token" = true ->
  get_prop res "type" = JStr t ->
  trim t <> "" ->
  login_then res this
  = (tt,
     set_socket (Some (wsURI this))
       (set__fetchReady true
          (set__token (mkToken (JStr t) (get_prop res "token"))
             (set__authenticated true this))),
     [Emit "fetchReady" NoArg; SocketOpen (wsURI this)]).
Proof.
  intros Hobj Hs Htok Htype Htrim.
  unfold login_then, method_hasOwnProperty, bind, get. cbv beta iota.
  apply andb_prop in Hobj. destruct Hobj as [Ht Ho].
  rewrite Ht, Ho, Hs, Htok, Htype. cbn [negb orb].
  apply String.eqb_neq in Htrim. rewrite Htrim. reflexivity.
Qed.

(** X13.  The answer to the login request opens the socket exactly when it
    has a success status, a content type that holds [application/json], and
    a body that parses to an object with a [token] entry of its own and
    without an entry [hasOwnProperty] of its own.  Every other answer is
    signalled as one [error] and changes no field. *)
Theorem login_opens_socket_iff
    (address : string) (r : response) (this : Connection) :
  let m := login_settled (fetch_then JSON_parse address r) in
  (existsb opens_socket (effects m this) = true <->
   ok r = true
   /\ exists type v,
       content_type r = Some type
       /\ includes "application/json" type = true
       /\ JSON_parse (body r) = Some v
       /\ truthy v && typeof_object v = true
       /\ hasOwnProperty v "hasOwnProperty" = false
       /\ hasOwnProperty v "token" = true)
  /\ (existsb opens_socket (effects m this) = false ->
      after m this = this /\ count_emit "error" (effects m this) = 1%nat).
Proof.
  intros m.
  assert (Hres : forall v,
             (existsb opens_socket (effects (login_then v) this) = true <->
              truthy v && typeof_object v = true
              /\ hasOwnProperty v "hasOwnProperty" = false
              /\ hasOwnProperty v "token" = true)
             /\ (existsb opens_socket (effects (login_then v) this) = false ->
                 after (login_then v) this = this
                 /\ count_emit "error" (effects (login_then v) this) = 1%nat)).
  { intros v. unfold effects, after.
    destruct (login_then_cases v this)
      as [(err & -> & Hbad) | (Hobj & Hs & Htok & knd & ->)]; cbn.
    - split; [|auto]. split; [discriminate|]. intros (Hobj & Hs & Htok).
      destruct Hbad as [Hbad | [Hbad | Hbad]]; congruence.
    - split; [|discriminate]. split; auto. }
  subst m. unfold fetch_then.
  destruct (ok r) eqn:Eok; cbn [negb].
  - destruct (content_type r) as [type|] eqn:Ect.
    + destruct (includes "application/json" type) eqn:Ejs.
      * destruct (JSON_parse (body r)) as [v|] eqn:Ep.
        -- simpl login_settled. destruct (Hres v) as [Hiff Hno].
           split; [|exact Hno]. rewrite Hiff. split.
           ++ intros (Hobj & Hs & Htok). split; [reflexivity|].
              exists type, v. auto 7.
           ++ intros (_ & type' & v' & Ht & _ & Hv & Hobj & Hs & Htok).
              injection Hv as ->. auto.
        -- cbn. split; [|auto]. split; [discriminate|].
           intros (_ & type' & v' & _ & _ & Hv & _). discriminate.
      * simpl login_settled. destruct (Hres (JStr (body r))) as [Hiff Hno].
        split; [|exact Hno]. rewrite Hiff. split.
        -- intros [Hobj _]. cbn in Hobj. rewrite andb_false_r in Hobj.
           discriminate.
        -- intros (_ & type' & v' & Ht & Hj & _). injection Ht as <-.
           congruence.
    + cbn. split; [|auto]. split; [discriminate|].
      intros (_ & type' & v' & Ht & _). discriminate.
  - cbn. split; [|auto]. split; [discriminate|]. intros [H _]. discriminate.
Qed.



(** *** Frames *)

(** X15.  While connected, a string handed to [send] is first parsed: text
    that is not JSON reaches the socket as it is; text that parses to an
    object or array reaches it serialised again; text that parses to
    anything else (a number, a boolean, [null], a string) reaches the socket
    as the parsed value, not as the text. *)
Theorem send_string (s : string) (this : Connection) (uri : string) :
  connected this = true ->
  socket this = Some uri ->
  (JSON_parse s = None ->
   send JSON_parse (JStr s) this = (SendUndefined, this, [SocketSend (JStr s)]))
  /\ (forall v,
        JSON_parse s = Some v ->
        truthy v && typeof_object v = true ->
        send JSON_parse (JStr s) this
        = (SendUndefined, this, [SocketSend (JStr (text_of v))]))
  /\ (forall v,
        JSON_parse s = Some v ->
        truthy v && typeof_object v = false ->
        send JSON_parse (JStr s) this = (SendUndefined, this, [SocketSend v])).
Proof.
  intros Hc Hs. unfold send, bind, get. cbv beta iota zeta.
  rewrite Hc, Hs. cbn [negb orb parse_if_string].
  split; [|split].
  - intros Hp. rewrite Hp. cbn. rewrite andb_false_r. reflexivity.
  - intros v Hp Hv. rewrite Hp, Hv, this_useAuthentication. cbn [is_true andb].
    unfold text_of.
    destruct (object_cases _ Hv) as [(es & ex & ->) | (ps & ->)]; reflexivity.
  - intros v Hp Hv. rewrite Hp, Hv. reflexivity.
Qed.

(** X16.  Every inbound frame has its time of receipt recorded.  Unless the
    parsed value is an object or array with an entry [hasOwnProperty] of its
    own, the handler signals [message] exactly once, as its last effect,
    with the parsed value, or with the text itself when the text is not
    JSON; a frame that is then not a handshake changes no other field and
    gives no other signal.  On an object or array with such an entry the
    test of the handshake throws a [TypeError]: the handler ends with no
    signal at all. *)
Theorem message_always_passed_on
    (now : Z) (data : jsval) (this : Connection) :
  let m := _onWSMessage JSON_parse now data in
  let parsed := parse_if_string JSON_parse data in
  let shadowed :=
    truthy parsed && typeof_object parsed
    && hasOwnProperty parsed "hasOwnProperty" in
  lastMessage (after m this) = now
  /\ (shadowed = true ->
      m this = (tt, set_lastMessage now this, [Uncaught TypeError]))
  /\ (shadowed = false ->
      count_emit "message" (effects m this) = 1%nat
      /\ exists before,
          effects m this = (before ++ [Emit "message" (Val parsed)])%list)
  /\ (forall s, data = JStr s -> JSON_parse s = None ->
      m this = (tt, set_lastMessage now this, [Emit "message" (Val data)]))
  /\ (is_handshake parsed = Some false ->
      m this = (tt, set_lastMessage now this, [Emit "message" (Val parsed)])).
Proof.
  cbv zeta.
  pose proof (message_cases JSON_parse now data this) as Hc.
  remember (parse_if_string JSON_parse data) as parsed eqn:Ep in *.
  assert (Hshadow :
            truthy parsed && typeof_object parsed
            && hasOwnProperty parsed "hasOwnProperty" = true
            <-> is_handshake parsed = None).
  { unfold is_handshake, method_hasOwnProperty.
    destruct (truthy parsed && typeof_object parsed); cbn [andb];
      [|split; discriminate].
    destruct (hasOwnProperty parsed "hasOwnProperty");
      [split; reflexivity|].
    split; [discriminate|].
    destruct (hasOwnProperty parsed "name"); [|discriminate].
    destruct (hasOwnProperty parsed "version"); discriminate. }
  split; [|split; [|split; [|split]]].
  - unfold after.
    destruct Hc as [(_ & ->) | [(_ & ->) | (_ & ->)]]; reflexivity.
  - intros Hs. apply Hshadow in Hs.
    destruct Hc as [(_ & ->) | [(E & _) | (E & _)]];
      [reflexivity | congruence | congruence].
  - intros Hs. unfold effects.
    destruct Hc as [(E & _) | [(_ & ->) | (_ & ->)]].
    + apply Hshadow in E. congruence.
    + split; [reflexivity|]. exists []. reflexivity.
    + destruct (is_null (get_prop parsed "self")); cbn;
        (split; [reflexivity|]);
        match goal with
        | |- exists before, ?l = _ => exists (removelast l); reflexivity
        end.
  - intros s -> Hp. simpl in Ep. rewrite Hp in Ep. subst parsed.
    destruct Hc as [(E & _) | [(_ & ->) | (E & _)]].
    + unfold is_handshake in E. cbn [typeof_object] in E.
      rewrite andb_false_r in E. discriminate.
    + reflexivity.
    + unfold is_handshake in E. cbn [typeof_object] in E.
      rewrite andb_false_r in E. discriminate.
  - intros Hh.
    destruct Hc as [(E & _) | [(_ & ->) | (E & _)]];
      [congruence | reflexivity | congruence].
Qed.

(** *** One socket, one address *)

(** X17.  A [disconnect()] made while the login request is outstanding does
    not cancel the attempt: it sets the intent and nothing else, and an
    answer to the login that is an object with a [token] entry and without
    an entry [hasOwnProperty] of its own still opens the socket and the
    object connects.  The intent stays set, so the close of that socket ends
    the connection without a further attempt. *)
Theorem disconnect_during_login
    (res evt : jsval) (this : Connection) :
  isConnecting this = true ->
  socket this = None ->
  truthy res && typeof_object res = true ->
  hasOwnProperty res "hasOwnProperty" = false ->
  hasOwnProperty res "token" = true ->
  let this1 := after disconnect this in
  let this2 := after (login_then res) this1 in
  let this3 := after _onWSOpen this2 in
  disconnect this = (tt, set_shouldDisconnect true this, [])
  /\ effects (login_then res) this1
     = [Emit "fetchReady" NoArg; SocketOpen (wsURI this)]
  /\ socket this2 = Some (wsURI this)
  /\ connected this3 = true
  /\ shouldDisconnect this3 = true
  /\ no_attempt (effects (_onWSClose evt) this3) = true
  /\ socket (after (_onWSClose evt) this3) = None.
Proof.
  intros Hi Hs Hobj Hown Htok this1 this2 this3.
  assert (Hd : disconnect this = (tt, set_shouldDisconnect true this, []))
    by (rewrite disconnect_eq; now apply reconnect_in_flight).
  assert (H1 : this1 = set_shouldDisconnect true this)
    by (subst this1; unfold after; now rewrite Hd).
  destruct (login_then_cases res this1)
    as [(err & _ & [Hbad | [Hbad | Hbad]]) | (_ & _ & _ & knd & Hl)];
    try congruence.
  assert (H2 : this2
               = set_socket (Some (wsURI this1))
                   (set__fetchReady true
                      (set__token (mkToken knd (get_prop res "token"))
                         (set__authenticated true this1))))
    by (subst this2; unfold after; now rewrite Hl).
  split; [exact Hd|].
  split; [unfold effects; rewrite Hl, H1; reflexivity|].
  split; [rewrite H2, H1; reflexivity|].
  split; [reflexivity|].
  assert (H3 : shouldDisconnect this3 = true)
    by (subst this3; rewrite H2, H1; reflexivity).
  split; [exact H3|].
  assert (Hs3 : socket this3 = Some (wsURI this))
    by (subst this3; rewrite H2, H1; reflexivity).
  destruct (close_stops evt this3 (wsURI this) Hs3 (or_intror H3))
    as [Ha He].
  rewrite Ha. split; [|reflexivity].
  destruct He as [-> | [_ ->]]; reflexivity.
Qed.

Lemma reconnect_opens_once (initial : bool) (this : Connection) :
  (count_open (effects (reconnect initial) this) <= 1)%nat
  /\ opens_at (wsURI this) (effects (reconnect initial) this) = true
  /\ (count_open (effects (reconnect initial) this) <> O ->
      socket this = None
      /\ socket (after (reconnect initial) this) = Some (wsURI this)
      /\ isConnecting (after (reconnect initial) this) = true).
Proof.
  unfold effects, after.
  destruct (reconnect_spec initial this); cbn; rewrite ?String.eqb_refl;
    (split; [lia | split; [reflexivity|]]);
    intros Hx; try (now elim Hx); auto.
Qed.

Lemma send_opens_nothing (data : jsval) (this : Connection) :
  count_open (effects (send JSON_parse data) this) = O
  /\ opens_at (wsURI this) (effects (send JSON_parse data) this) = true.
Proof.
  unfold effects, send, bind, get. cbv beta iota.
  destruct (negb (connected this)
            || match socket this with None => true | Some _ => false end);
    split; reflexivity.
Qed.

(** Closes a goal about a step that opens no socket. *)
Ltac opens_none :=
  cbn; rewrite ?String.eqb_refl;
  repeat split; try lia; try reflexivity; try congruence; auto.

(** A step opens at most one socket, at the stream address of the object,
    and only when the object holds none at that moment. *)
Lemma step_opens_once (ev : event) (this : Connection) :
  enabled ev this = true ->
  (count_open (effects (step JSON_parse ev) this) <= 1)%nat
  /\ opens_at (wsURI this) (effects (step JSON_parse ev) this) = true
  /\ wsURI (after (step JSON_parse ev) this) = wsURI this
  /\ (count_open (effects (step JSON_parse ev) this) <> O ->
      (socket this = None \/ exists evt, ev = WSClose evt)
      /\ socket (after (step JSON_parse ev) this) = Some (wsURI this)
      /\ isConnecting (after (step JSON_parse ev) this) = true).
Proof.
  intros He.
  assert (Hw : forall i t, wsURI (after (reconnect i) t) = wsURI t).
  { intros i t. unfold after. destruct (reconnect_spec i t); reflexivity. }
  destruct ev; simpl step; simpl in He.
  - opens_none.
  - unfold _onWSMessage, set_connectionInfo, set_self.
    destruct (is_handshake (parse_if_string JSON_parse data)) as [[|]|];
      [|opens_none|opens_none].
    destruct (is_null (parse_if_string JSON_parse data));
      destruct (is_null (get_prop (parse_if_string JSON_parse data) "self"));
      opens_none.
  - destruct (onWSError_after err this) as [-> ->].
    destruct (reconnect_opens_once false
                (set__retries (incr (_retries this)) this))
      as (H1 & H2 & H3).
    rewrite Hw.
    split; [exact H1|]. split; [exact H2|]. split; [reflexivity|].
    intros Hx. destruct (H3 Hx) as (Ha & Hb & Hc). auto.
  - destruct (socket this) as [uri|] eqn:Es; [|discriminate].
    destruct (onWSClose_after evt this uri Es) as [-> ->].
    destruct (reconnect_opens_once false (closed this)) as (H1 & H2 & H3).
    rewrite Hw.
    split; [exact H1|]. split; [exact H2|]. split; [reflexivity|].
    intros Hx. destruct (H3 Hx) as (Ha & Hb & Hc). eauto.
  - apply andb_prop in He. destruct He as [Hi Hs].
    destruct (socket this) eqn:Es; [discriminate|].
    destruct o as [res | err]; [|opens_none].
    unfold effects, after. simpl login_settled.
    destruct (login_then_cases res this)
      as [(err & -> & _) | (_ & _ & _ & knd & ->)]; opens_none.
  - destruct (disconnect_after this) as [-> ->].
    destruct (reconnect_opens_once false (set_shouldDisconnect true this))
      as (H1 & H2 & H3).
    rewrite Hw.
    split; [exact H1|]. split; [exact H2|]. split; [reflexivity|].
    intros Hx. destruct (H3 Hx) as (Ha & Hb & Hc). auto.
  - destruct (reconnect_opens_once initial this) as (H1 & H2 & H3).
    rewrite Hw.
    split; [exact H1|]. split; [exact H2|]. split; [reflexivity|].
    intros Hx. destruct (H3 Hx) as (Ha & Hb & Hc). auto.
  - rewrite after_bind, effects_bind, send_state.
    destruct (send_opens_nothing data this) as [H1 H2].
    cbn [effects ret snd]. rewrite app_nil_r, H1, H2. opens_none.
  - rewrite after_bind, effects_bind, fetch_state.
    destruct (fetch_shape path opts this) as (uri & opts' & H).
    unfold effects at 1 2 3. rewrite H. opens_none.
  - opens_none.
  - opens_none.
Qed.

(** X18.  Under the events its transports can deliver, the object never
    opens a second socket beside the one it holds: a step opens at most one
    socket, and only when the object held none or the step is the close of
    the one it held; the object then holds the new socket and is
    connecting. *)
Theorem never_two_sockets (ev : event) (this : Connection) :
  enabled ev this = true ->
  (count_open (effects (step JSON_parse ev) this) <= 1)%nat
  /\ (count_open (effects (step JSON_parse ev) this) = 1%nat ->
      (socket this = None \/ exists evt, ev = WSClose evt)
      /\ socket (after (step JSON_parse ev) this) = Some (wsURI this)
      /\ isConnecting (after (step JSON_parse ev) this) = true).
Proof.
  intros He. destruct (step_opens_once ev this He) as (H1 & _ & _ & H4).
  split; [exact H1|]. intros Hx. apply H4. rewrite Hx. discriminate.
Qed.

Lemma opens_at_app (address : string) (a b : list effect) :
  opens_at address (a ++ b) = opens_at address a && opens_at address b.
Proof. unfold opens_at. apply forallb_app. Qed.

Lemma step_addresses (ev : event) (this : Connection) :
  httpURI (after (step JSON_parse ev) this) = httpURI this
  /\ wsURI (after (step JSON_parse ev) this) = wsURI this.
Proof.
  assert (Hw : forall i t,
             httpURI (after (reconnect i) t) = httpURI t
             /\ wsURI (after (reconnect i) t) = wsURI t).
  { intros i t. unfold after. destruct (reconnect_spec i t); split; reflexivity. }
  destruct ev; simpl step.
  - split; reflexivity.
  - unfold _onWSMessage, set_connectionInfo, set_self.
    destruct (is_handshake (parse_if_string JSON_parse data)) as [[|]|];
      [|split; reflexivity|split; reflexivity].
    destruct (is_null (parse_if_string JSON_parse data));
      destruct (is_null (get_prop (parse_if_string JSON_parse data) "self"));
      split; reflexivity.
  - destruct (onWSError_after err this) as [-> _].
    exact (Hw false (set__retries (incr (_retries this)) this)).
  - destruct (socket this) as [uri|] eqn:Es.
    + destruct (onWSClose_after evt this uri Es) as [-> _].
      exact (Hw false (closed this)).
    + unfold after. rewrite (onWSClose_null evt this Es). split; reflexivity.
  - destruct o as [res | err]; [|split; reflexivity].
    unfold after. simpl login_settled.
    destruct (login_then_cases res this)
      as [(err & -> & _) | (_ & _ & _ & knd & ->)]; split; reflexivity.
  - destruct (disconnect_after this) as [-> _].
    exact (Hw false (set_shouldDisconnect true this)).
  - apply Hw.
  - rewrite after_bind, send_state. split; reflexivity.
  - rewrite after_bind, fetch_state. split; reflexivity.
  - split; reflexivity.
  - split; reflexivity.
Qed.

Lemma run_addresses (evs : list event) (this : Connection) :
  httpURI (after (run JSON_parse evs) this) = httpURI this
  /\ wsURI (after (run JSON_parse evs) this) = wsURI this.
Proof.
  revert this. induction evs as [|ev evs IH]; intro this;
    [split; reflexivity|].
  destruct (run_cons JSON_parse ev evs this) as [-> _].
  destruct (step_addresses ev this) as [<- <-]. apply IH.
Qed.

Lemma run_opens_at (evs : list event) (this : Connection) :
  deliverable JSON_parse evs this = true ->
  opens_at (wsURI this) (effects (run JSON_parse evs) this) = true.
Proof.
  revert this. induction evs as [|ev evs IH]; intros this Hd; [reflexivity|].
  simpl in Hd. apply andb_prop in Hd. destruct Hd as [He Hd].
  destruct (run_cons JSON_parse ev evs this) as [_ ->].
  destruct (step_opens_once ev this He) as (_ & H2 & H3 & _).
  rewrite opens_at_app, H2. rewrite <- H3. now apply IH.
Qed.

(** X19.  The options, the two addresses and the default token type are
    fixed at construction: no run changes them, and every socket the object
    ever opens, in the constructor or later, is opened at the stream address
    built from the options. *)
Theorem configuration_is_fixed (o : Options.t) (evs : list event) :
  deliverable JSON_parse evs (constructed o) = true ->
  let this := after (run JSON_parse evs) (constructed o) in
  options this = o
  /\ httpURI this = buildURI o "http"
  /\ wsURI this = buildURI o "ws"
  /\ _bearerTokenPrefix this
     = js_or (Options.bearerTokenPrefix o) (JStr "Bearer")
  /\ opens_at (buildURI o "ws")
       (snd (construct o) ++ effects (run JSON_parse evs) (constructed o))
     = true.
Proof.
  intros Hd this.
  assert (Hc : httpURI (constructed o) = buildURI o "http"
               /\ wsURI (constructed o) = buildURI o "ws"
               /\ opens_at (buildURI o "ws") (snd (construct o)) = true).
  { unfold constructed, construct, after, effects. cbn [fst snd].
    destruct (reconnect_opens_once true (fresh o)) as (_ & H2 & _).
    unfold effects in H2. cbn [wsURI fresh] in H2.
    destruct (reconnect_spec true (fresh o)); repeat split; auto. }
  destruct Hc as (Hh & Hw & Ho).
  subst this. destruct (run_addresses evs (constructed o)) as [-> ->].
  split.
  { rewrite (run_options JSON_parse). apply constructed_counter. }
  split; [exact Hh|]. split; [exact Hw|].
  split; [apply default_token_type|].
  rewrite opens_at_app, Ho. rewrite <- Hw. now apply run_opens_at.
Qed.

(** *** Asking for a disconnect *)

(** X20.  On an object that holds a socket and is not connecting,
    [disconnect()] sets the intent and asks the socket to close, and
    [reconnect()] only asks the socket to close; neither changes another
    field, so [connected] keeps its value until the close arrives.  The
    close then ends the connection: no attempt follows, and the listeners
    and the credential are released. *)
Theorem disconnect_requests_close
    (this : Connection) (evt : jsval) (uri : string) (initial : bool) :
  socket this = Some uri ->
  isConnecting this = false ->
  disconnect this = (tt, set_shouldDisconnect true this, [SocketClose])
  /\ reconnect initial this = (tt, this, [SocketClose])
  /\ connected (after disconnect this) = connected this
  /\ after (_onWSClose evt) (after disconnect this)
     = cleaned (closed (set_shouldDisconnect true this))
  /\ no_attempt (effects (_onWSClose evt) (after disconnect this)) = true.
Proof.
  intros Hs Hi.
  assert (Hr : forall i t, socket t = Some uri -> isConnecting t = false ->
                           reconnect i t = (tt, t, [SocketClose])).
  { intros i t Ht1 Ht2. unfold reconnect, bind, get. cbv beta iota.
    now rewrite Ht2, Ht1. }
  assert (Hd : disconnect this
               = (tt, set_shouldDisconnect true this, [SocketClose]))
    by (rewrite disconnect_eq; now apply Hr).
  assert (Ha : after disconnect this = set_shouldDisconnect true this)
    by (unfold after; now rewrite Hd).
  split; [exact Hd|]. split; [now apply Hr|]. rewrite Ha.
  split; [reflexivity|].
  destruct (close_stops evt (set_shouldDisconnect true this) uri Hs
              (or_intror eq_refl)) as [Hc He].
  split; [exact Hc|].
  destruct He as [-> | [_ ->]]; reflexivity.
Qed.

(** X21.  On an object whose socket is still opening, [disconnect()] sets
    the intent but does not ask the socket to close (its [reconnect] returns
    at the guard on [isConnecting]).  When the socket then opens the object
    becomes connected and signals [connect]; nothing closes the socket, and
    the intent stays set for the next close. *)
Theorem disconnect_while_opening
    (this : Connection) (uri : string) :
  socket this = Some uri ->
  isConnecting this = true ->
  disconnect this = (tt, set_shouldDisconnect true this, [])
  /\ _onWSOpen (after disconnect this)
     = (tt,
        set_isConnecting false
          (set_connected true (set_shouldDisconnect true this)),
        [Emit "connect" NoArg])
  /\ socket (after _onWSOpen (after disconnect this)) = Some uri
  /\ connected (after _onWSOpen (after disconnect this)) = true
  /\ shouldDisconnect (after _onWSOpen (after disconnect this)) = true.
Proof.
  intros Hs Hi.
  assert (Hd : disconnect this = (tt, set_shouldDisconnect true this, []))
    by (rewrite disconnect_eq; now apply reconnect_in_flight).
  assert (Ha : after disconnect this = set_shouldDisconnect true this)
    by (unfold after; now rewrite Hd).
  rewrite Ha. repeat split; auto.
Qed.



End Lifecycle.

(** X1 at a connection that is refused twice and then established. *)
Lemma connected_holds_socket_witness :
  let this :=
    after (run sample_parse refused_twice)
      (constructed (sample_options false 9)) in
  connected this = true
  /\ socket this <> None /\ isConnecting this = false
  /\ result (send sample_parse (JStr "ping")) this = SendUndefined.
Proof.
  intros this.
  destruct (connected_holds_socket sample_parse (sample_options false 9)
              refused_twice (JStr "ping") eq_refl) as (H1 & _ & H3).
  assert (Hc : connected this = true) by reflexivity.
  destruct (H1 Hc) as [Hs Hi]. auto.
Defined.

(** X2 at [maxRetries] = 0 and a connection that is refused twice. *)
Lemma no_limit_without_positive_maxRetries_witness :
  count_emit "hitMaxRetries"
    (snd (construct (sample_options false 0))
     ++ effects (run sample_parse refused_twice)
          (constructed (sample_options false 0))) = O.
Proof.
  apply (no_limit_without_positive_maxRetries sample_parse
           (sample_options false 0) refused_twice).
  - intros n H. injection H as <-. lia.
  - reflexivity.
Defined.

(** X3 at a connection that is refused twice and then established: four
    failures, and the opening keeps the count. *)
Lemma retries_accumulate_witness :
  _retries
    (after (run sample_parse refused_twice)
       (constructed (sample_options false 9))) = 4.
Proof.
  destruct (retries_accumulate sample_parse refused_twice
              (constructed (sample_options false 9))) as (_ & H & _).
  - vm_compute. discriminate.
  - exact H.
Defined.

(** X4 at an open connection. *)
Lemma error_then_close_counts_twice_witness :
  _retries
    (after (_onWSClose (JObj [("code", JNum 1006)]))
       (after (_onWSError (JStr "reset")) open_sample)) = 2.
Proof.
  destruct (error_then_close_counts_twice sample_parse (JStr "reset")
              (JObj [("code", JNum 1006)]) open_sample
              "ws://localhost:3000/signalk/v1/stream?subscribe=none")
    as (_ & _ & H).
  - reflexivity.
  - vm_compute. discriminate.
  - exact H.
Defined.

(** X5 at an object that has reached a limit of one retry. *)
Lemma exhausted_signals_each_call_witness :
  let this :=
    after (_onWSClose (JObj [("code", JNum 1000)]))
      (after _onWSOpen (constructed (sample_options false 1))) in
  count_emit "hitMaxRetries"
    (effects
       (run sample_parse [CallReconnect false; CallDisconnect; CallDisconnect])
       this) = 3%nat.
Proof.
  intros this.
  destruct (exhausted_signals_each_call sample_parse
              [CallReconnect false; CallDisconnect; CallDisconnect] this)
    as (H & _).
  - repeat split.
  - reflexivity.
  - exact H.
Defined.

(** X6 at an open connection with reconnection switched off. *)
Lemma reconnect_switched_off_witness :
  let o :=
    {| Options.hostname := JStr "localhost"; Options.port := JNum 80;
       Options.useTLS := JBool true; Options.version := JStr "v1";
       Options.useAuthentication := JBool false;
       Options.username := JUndefined; Options.password := JUndefined;
       Options.reconnect := JBool false; Options.maxRetries := JNum 5;
       Options.bearerTokenPrefix := JUndefined |} in
  let this := after _onWSOpen (constructed o) in
  no_attempt (effects (_onWSClose (JObj [("code", JNum 1006)])) this) = true
  /\ _events (after (_onWSClose (JObj [("code", JNum 1006)])) this) = [].
Proof.
  intros o this.
  destruct (reconnect_switched_off this (JObj [("code", JNum 1006)])
              "wss://localhost/signalk/v1/stream?subscribe=none")
    as (_ & _ & H1 & _ & H2 & _); [reflexivity | reflexivity |].
  split; assumption.
Defined.

(** X7 at an open connection with a limit of one retry. *)
Lemma requested_close_can_signal_limit_witness :
  let this := after _onWSOpen (constructed (sample_options false 1)) in
  effects (_onWSClose (JObj [("code", JNum 1000)])) (after disconnect this)
  = [Emit "disconnect" (Val (JObj [("code", JNum 1000)]));
     Emit "hitMaxRetries" NoArg].
Proof.
  intros this.
  destruct (requested_close_can_signal_limit this (JObj [("code", JNum 1000)])
              "ws://localhost:3000/signalk/v1/stream?subscribe=none")
    as (_ & H); [reflexivity | reflexivity | exact H].
Defined.

(** X8 at an open connection with authentication: the close issues the
    login request again. *)
Lemma close_starts_over_witness :
  exists address opts,
    _onWSClose (JObj [("code", JNum 1006)]) logged_in
    = (tt, connecting (closed logged_in),
       [Emit "disconnect" (Val (JObj [("code", JNum 1006)]));
        HttpRequest address opts]).
Proof.
  destruct (close_starts_over logged_in (JObj [("code", JNum 1006)])
              "ws://localhost:3000/signalk/v1/stream?subscribe=none")
    as (_ & H & _); try reflexivity; try discriminate.
  apply H. discriminate.
Defined.

(** X10 at the login request of the constructor. *)
Lemma login_request_shape_witness :
  get_prop (login_options (sample_options true 3)) "method" = JStr "POST"
  /\ auxiliary_address
       (httpURI (fresh (sample_options true 3)) ++ "/auth/login")
     = "http://localhost:3000/signalk/v1/auth/login".
Proof.
  destruct (login_request_shape true (fresh (sample_options true 3))
              (auxiliary_address
                 (httpURI (fresh (sample_options true 3)) ++ "/auth/login"))
              (login_options (sample_options true 3)))
    as (_ & _ & H & _); [reflexivity|].
  split; [exact H | reflexivity].
Defined.


(** X12 at the login answer [{token: 'abc', type: 'JWT'}]. *)
Lemma login_explicit_type_witness :
  _token
    (after
       (login_then (JObj [("token", JStr "abc"); ("type", JStr "JWT")]))
       (constructed (sample_options true 3)))
  = mkToken (JStr "JWT") (JStr "abc").
Proof.
  unfold after.
  rewrite (login_explicit_type
             (JObj [("token", JStr "abc"); ("type", JStr "JWT")]) "JWT"
             (constructed (sample_options true 3)));
    [reflexivity | reflexivity | reflexivity | reflexivity | reflexivity
     | discriminate].
Defined.


(** X15 at the text [42]: the socket is handed the number. *)
Lemma send_string_witness :
  send number_parse (JStr "42") open_sample
  = (SendUndefined, open_sample, [SocketSend (JNum 42)]).
Proof.
  destruct (send_string number_parse "42" open_sample
              "ws://localhost:3000/signalk/v1/stream?subscribe=none")
    as (_ & _ & H); [reflexivity | reflexivity |].
  apply H; reflexivity.
Defined.

(** X16 at a frame whose object has an entry [hasOwnProperty]: the handler
    records the time and throws. *)
Lemma message_always_passed_on_witness :
  _onWSMessage shadowing_parse 1700000000000 (JStr (text_of shadowing_frame))
    open_sample
  = (tt, set_lastMessage 1700000000000 open_sample, [Uncaught TypeError]).
Proof.
  destruct (message_always_passed_on shadowing_parse 1700000000000
              (JStr (text_of shadowing_frame)) open_sample) as (_ & H & _).
  apply H. reflexivity.
Defined.

(** X17 at an object whose login request is outstanding. *)
Lemma disconnect_during_login_witness :
  let this := constructed (sample_options true 3) in
  let res := JObj [("token", JStr "abc")] in
  effects (login_then res) (after disconnect this)
  = [Emit "fetchReady" NoArg;
     SocketOpen "ws://localhost:3000/signalk/v1/stream?subscribe=none"]
  /\ connected (after _onWSOpen (after (login_then res) (after disconnect this)))
     = true.
Proof.
  intros this res.
  destruct (disconnect_during_login res (JObj [("code", JNum 1000)]) this)
    as (_ & H1 & _ & H2 & _); try reflexivity.
  split; [exact H1 | exact H2].
Defined.

(** X18 at the close of an open connection, which opens the next socket. *)
Lemma never_two_sockets_witness :
  (count_open
     (effects (step sample_parse (WSClose (JObj [("code", JNum 1006)])))
        open_sample) <= 1)%nat.
Proof.
  destruct (never_two_sockets sample_parse
              (WSClose (JObj [("code", JNum 1006)])) open_sample)
    as (H & _); [reflexivity | exact H].
Defined.

(** X19 at a connection that is refused twice and then established. *)
Lemma configuration_is_fixed_witness :
  wsURI
    (after (run sample_parse refused_twice)
       (constructed (sample_options false 9)))
  = "ws://localhost:3000/signalk/v1/stream?subscribe=none"
  /\ opens_at "ws://localhost:3000/signalk/v1/stream?subscribe=none"
       (snd (construct (sample_options false 9))
        ++ effects (run sample_parse refused_twice)
             (constructed (sample_options false 9))) = true.
Proof.
  destruct (configuration_is_fixed sample_parse (sample_options false 9)
              refused_twice) as (_ & _ & H1 & _ & H2); [reflexivity|].
  split; [exact H1 | exact H2].
Defined.

(** X20 at an open connection. *)
Lemma disconnect_requests_close_witness :
  disconnect open_sample
  = (tt, set_shouldDisconnect true open_sample, [SocketClose]).
Proof.
  destruct (disconnect_requests_close open_sample (JObj [("code", JNum 1000)])
              "ws://localhost:3000/signalk/v1/stream?subscribe=none" false)
    as (H & _); [reflexivity | reflexivity | exact H].
Defined.

(** X21 at an object whose socket has not opened yet. *)
Lemma disconnect_while_opening_witness :
  let this := constructed (sample_options false 3) in
  disconnect this = (tt, set_shouldDisconnect true this, [])
  /\ connected (after _onWSOpen (after disconnect this)) = true.
Proof.
  intros this.
  destruct (disconnect_while_opening this
              "ws://localhost:3000/signalk/v1/stream?subscribe=none")
    as (H1 & _ & _ & H2 & _); [reflexivity | reflexivity |].
  split; [exact H1 | exact H2].
Defined.
